(** * go-web3-scripts: wallet core of the Litecoin, Stacks and Tron scripts

    A shallow embedding of the key-derivation, address-encoding and UTXO
    transaction-building code of

      - [LITECOIN/main.go]  ([SendLitecoinTransaction]),
      - [stacks_BC/main.go] ([createStacksAccount], [encodeC32Address]),
      - [tron/main.go]      ([deriveTronAddress]),

    followed by the properties proved about it.  Go's [log.Fatal] is an
    explicit failure value, [int64] arithmetic is arithmetic on [Z] with
    the wrap-around written out, [float64] is Rocq's binary64 [float], and
    the third-party packages (btcd, go-bip32, go-bip39, go-ethereum, gotron,
    base58) are interfaces whose operations the code only calls. *)

From Stdlib Require Import ZArith List String Ascii Bool Lia Floats.
From Stdlib Require Import Strings.Byte.
Import ListNotations.

Open Scope bool_scope.
Open Scope Z_scope.

(* ================================================================== *)
(** * Part I: the model                                                *)
(* ================================================================== *)

(** ** Go runtime: integers, floats, slices, [encoding/hex] *)

Module Go.

Definition MinInt64 : Z := - 2 ^ 63.
Definition MaxInt64 : Z := 2 ^ 63 - 1.
Definition MaxUint32 : Z := 2 ^ 32 - 1.

(** Two's-complement reduction of an integer to [int64]. *)
Definition wrap64 (z : Z) : Z := (z + 2 ^ 63) mod 2 ^ 64 - 2 ^ 63.

(** [a + b] and [a - b] on [int64]. *)
Definition add64 (a b : Z) : Z := wrap64 (a + b).
Definition sub64 (a b : Z) : Z := wrap64 (a - b).

Definition in_int64 (z : Z) : Prop := MinInt64 <= z <= MaxInt64.

(** The conversion [int64(f)] of a [float64]: truncation toward zero.  Where
    the value does not fit (or is NaN or infinite) Go leaves the result to
    the implementation; amd64 yields the "integer indefinite" value
    [0x8000000000000000], which is what is modelled. *)
Definition float64_to_int64 (f : float) : Z :=
  match Prim2SF f with
  | S754_zero _ => 0
  | S754_finite s m e =>
      let mag := Z.shiftl (Zpos m) e in
      let v := if s then - mag else mag in
      if (MinInt64 <=? v) && (v <=? MaxInt64) then v else MinInt64
  | _ => MinInt64
  end.

(** [s[n:]] and [s[:n]] on a slice or string: a run-time panic ([None]) when
    [n] exceeds the length. *)
Definition sliceFrom {A : Type} (n : nat) (s : list A) : option (list A) :=
  if (n <=? List.length s)%nat then Some (skipn n s) else None.

Definition sliceTo {A : Type} (n : nat) (s : list A) : option (list A) :=
  if (n <=? List.length s)%nat then Some (firstn n s) else None.

(** The built-in [copy(dst[:], src)] into a zeroed [n]-byte array. *)
Definition copyInto (n : nat) (src : list byte) : list byte :=
  firstn n src ++ repeat x00 (n - List.length src).

(** *** [encoding/hex] *)

Definition byte_of_N (n : N) : byte :=
  match Byte.of_N n with Some b => b | None => x00 end.

Definition hextable : list ascii := list_ascii_of_string "0123456789abcdef".

Definition hexDigit (n : N) : ascii := nth (N.to_nat n) hextable "0"%char.

(** [hex.EncodeToString]. *)
Fixpoint EncodeToString (src : list byte) : string :=
  match src with
  | [] => EmptyString
  | v :: rest =>
      let n := Byte.to_N v in
      String (hexDigit (N.shiftr n 4))
        (String (hexDigit (N.land n 15)) (EncodeToString rest))
  end.

(** [reverseHexTable]: the value of a hex digit of either case. *)
Definition fromHexChar (c : ascii) : option N :=
  let n := N_of_ascii c in
  if ((48 <=? n) && (n <=? 57))%N then Some (n - 48)%N
  else if ((97 <=? n) && (n <=? 102))%N then Some (n - 87)%N
  else if ((65 <=? n) && (n <=? 70))%N then Some (n - 55)%N
  else None.

(** [hex.DecodeString]; [None] stands for a non-nil [err] (a character
    outside the table, or an odd length). *)
Fixpoint DecodeString (s : string) : option (list byte) :=
  match s with
  | EmptyString => Some []
  | String _ EmptyString => None
  | String p (String q rest) =>
      match fromHexChar p, fromHexChar q with
      | Some a, Some b =>
          match DecodeString rest with
          | Some tl => Some (byte_of_N (N.lor (N.shiftl a 4) b) :: tl)
          | None => None
          end
      | _, _ => None
      end
  end.

(** [s[:n]] on a string. *)
Definition stringTo (n : nat) (s : string) : option string :=
  option_map string_of_list_ascii (sliceTo n (list_ascii_of_string s)).

End Go.

(** ** Failures

    Every [log.Fatal]/[log.Fatalf] of the modelled functions, and the
    run-time panics they can reach. *)

Inductive failure : Type :=
  | ErrFromAddress          (* "Failed to create from address" *)
  | ErrInvalidToAddress     (* "Invalid to address" *)
  | ErrListUnspent          (* "Failed to list unspent" *)
  | ErrNoUnspent            (* "No unspent outputs available" *)
  | ErrInvalidTxid          (* "Invalid txid" *)
  | ErrInsufficientFunds    (* "Insufficient funds" *)
  | ErrPkScript             (* "Failed to create pkScript" *)
  | ErrChangeScript         (* "Failed to create change script" *)
  | ErrDecodeScriptPubKey   (* "Failed to decode scriptPubKey" *)
  | ErrSign                 (* "Failed to sign" *)
  | ErrSend                 (* "Failed to send transaction" *)
  | ErrEntropy              (* "Failed to generate entropy" *)
  | ErrMnemonic             (* "Failed to generate mnemonic" *)
  | ErrMasterKey            (* "Failed to generate master key" *)
  | ErrDeriveKey            (* "Failed to derive key" *)
  | ErrDeriveAddress        (* "Failed to derive address" *)
  | Panic.                  (* slice or index out of range *)

Inductive result (A : Type) : Type :=
  | Ok (a : A)
  | Fatal (e : failure).

Arguments Ok {A} a.
Arguments Fatal {A} e.

Definition bind {A B : Type} (r : result A) (k : A -> result B) : result B :=
  match r with
  | Ok a => k a
  | Fatal e => Fatal e
  end.

(** [v, err := f(...); if err != nil { log.Fatalf(...) }]. *)
Definition orFatal {A : Type} (o : option A) (e : failure) : result A :=
  match o with
  | Some a => Ok a
  | None => Fatal e
  end.

Declare Scope result_scope.
Delimit Scope result_scope with result.
Notation "x <- r ;; k" := (bind r (fun x => k))
  (at level 61, r at next level, right associativity) : result_scope.
Notation "' pat <- r ;; k" := (bind r (fun x => match x with pat => k end))
  (at level 61, pat pattern, r at next level, right associativity) : result_scope.
Open Scope result_scope.

(** ** LITECOIN/main.go: building and signing a transfer *)

Module Litecoin.

(** [btcjson.ListUnspentResult], the fields the code reads. *)
Record ListUnspentResult : Type := {
  TxID : string;
  Vout : Z;                 (* uint32 *)
  ScriptPubKey : string;
  Amount : float            (* float64, in coins *)
}.

(** [wire.OutPoint], [wire.TxIn], [wire.TxOut] and [wire.MsgTx] (whose
    fields [TxIn] and [TxOut] are [TxIns] and [TxOuts] here). *)
Record OutPoint : Type := {
  Hash : list byte;         (* chainhash.Hash, [32]byte *)
  Index : Z                 (* uint32 *)
}.

Record TxIn : Type := {
  PreviousOutPoint : OutPoint;
  SignatureScript : list byte;
  Witness : list (list byte);
  Sequence : Z
}.

Record TxOut : Type := {
  Value : Z;                (* int64 *)
  PkScript : list byte
}.

Record MsgTx : Type := {
  Version : Z;
  TxIns : list TxIn;
  TxOuts : list TxOut;
  LockTime : Z
}.

Definition TxVersion : Z := 1.
Definition MaxTxInSequenceNum : Z := 4294967295.
Definition HashSize : nat := 32.

Definition NewMsgTx (version : Z) : MsgTx :=
  {| Version := version; TxIns := []; TxOuts := []; LockTime := 0 |}.

Definition NewOutPoint (hash : list byte) (index : Z) : OutPoint :=
  {| Hash := hash; Index := index |}.

Definition NewTxIn (prevOut : OutPoint) : TxIn :=
  {| PreviousOutPoint := prevOut; SignatureScript := []; Witness := [];
     Sequence := MaxTxInSequenceNum |}.

Definition NewTxOut (value : Z) (pkScript : list byte) : TxOut :=
  {| Value := value; PkScript := pkScript |}.

Definition AddTxIn (tx : MsgTx) (ti : TxIn) : MsgTx :=
  {| Version := Version tx; TxIns := TxIns tx ++ [ti];
     TxOuts := TxOuts tx; LockTime := LockTime tx |}.

Definition AddTxOut (tx : MsgTx) (to : TxOut) : MsgTx :=
  {| Version := Version tx; TxIns := TxIns tx;
     TxOuts := TxOuts tx ++ [to]; LockTime := LockTime tx |}.

(** [txIn.SignatureScript = sigScript] through the pointer [tx.TxIn[i]]. *)
Fixpoint setNth {A : Type} (i : nat) (f : A -> A) (l : list A) : list A :=
  match l, i with
  | [], _ => []
  | x :: rest, O => f x :: rest
  | x :: rest, S j => x :: setNth j f rest
  end.

Definition withSignatureScript (sigScript : list byte) (ti : TxIn) : TxIn :=
  {| PreviousOutPoint := PreviousOutPoint ti; SignatureScript := sigScript;
     Witness := Witness ti; Sequence := Sequence ti |}.

Definition setSignatureScript (tx : MsgTx) (i : nat) (sigScript : list byte) : MsgTx :=
  {| Version := Version tx;
     TxIns := setNth i (withSignatureScript sigScript) (TxIns tx);
     TxOuts := TxOuts tx; LockTime := LockTime tx |}.

(** What [SendLitecoinTransaction] calls in btcd: btcutil, txscript and
    rpcclient.  [None] is a non-nil [err]. *)
Class BtcSuite : Type := {
  Address : Type;
  WIF : Type;
  Params : Type;
  Client : Type;
  TxHash : Type;
  (* btcutil.NewAddressPubKeyHash(btcutil.Hash160(
       wif.PrivKey.PubKey().SerializeCompressed()), net) *)
  btcutil_NewAddressPubKeyHash : WIF -> Params -> option Address;
  btcutil_DecodeAddress : string -> Params -> option Address;
  rpcclient_ListUnspentMinMaxAddresses :
    Client -> Z -> Z -> list Address -> option (list ListUnspentResult);
  txscript_PayToAddrScript : Address -> option (list byte);
  (* txscript.SignatureScript(tx, idx, subscript, SigHashAll, privKey, true) *)
  txscript_SignatureScript : MsgTx -> nat -> list byte -> WIF -> option (list byte);
  rpcclient_SendRawTransaction : Client -> MsgTx -> bool -> option TxHash
}.

(** [btcutil.Amount(f * 1e8)]: coins to satoshis. *)
Definition toAmount (f : float) : Z := Go.float64_to_int64 (f * 1e8)%float.

(** The constant the code adds to the amount ("+ fee"). *)
Definition fee : Z := 1000.

(** The input built for one unspent output, lines 113-120; [None] when the
    txid is not hexadecimal. *)
Definition inputOf (utxo : ListUnspentResult) : option TxIn :=
  match Go.DecodeString (TxID utxo) with
  | None => None
  | Some txid =>
      let hash := Go.copyInto HashSize txid in
      let outPoint := NewOutPoint hash (Vout utxo) in
      Some (NewTxIn outPoint)
  end.

(** The loop of lines 112-126 over the unspent outputs still to visit, from
    the transaction and the running total reached so far. *)
Fixpoint addInputs (utxos : list ListUnspentResult) (amount : Z)
    (tx : MsgTx) (totalInput : Z) : result (MsgTx * Z) :=
  match utxos with
  | [] => Ok (tx, totalInput)
  | utxo :: rest =>
      txIn <- orFatal (inputOf utxo) ErrInvalidTxid ;;
      let tx := AddTxIn tx txIn in
      let totalInput := Go.add64 totalInput (toAmount (Amount utxo)) in
      if totalInput >=? Go.add64 amount fee
      then Ok (tx, totalInput)
      else addInputs rest amount tx totalInput
  end.

(** A signer invocation: the input index and the locking script handed to
    [txscript.SignatureScript] for it. *)
Record SignRequest : Type := {
  reqIndex : nat;
  reqScript : list byte
}.

(** The loop of lines 150-160 over the input indices still to sign.  Beside
    its outcome it yields the signer invocations made, in order (also the
    one that failed). *)
Fixpoint signLoop `{BtcSuite} (indices : list nat) (utxos : list ListUnspentResult)
    (wif : WIF) (tx : MsgTx) (log : list SignRequest)
    : result MsgTx * list SignRequest :=
  match indices with
  | [] => (Ok tx, log)
  | i :: rest =>
      match nth_error utxos i with
      | None => (Fatal Panic, log)
      | Some utxo =>
          match Go.DecodeString (ScriptPubKey utxo) with
          | None => (Fatal ErrDecodeScriptPubKey, log)
          | Some scriptPubKey =>
              let log := log ++ [{| reqIndex := i; reqScript := scriptPubKey |}] in
              match txscript_SignatureScript tx i scriptPubKey wif with
              | None => (Fatal ErrSign, log)
              | Some sigScript =>
                  signLoop rest utxos wif (setSignatureScript tx i sigScript) log
              end
          end
      end
  end.

Section WithBtcSuite.
Context `{BtcSuite}.

(** Lines 104-147: from the unspent outputs to the unsigned transaction. *)
Definition buildTransaction (fromAddr toAddr : Address) (amount : Z)
    (utxos : list ListUnspentResult) : result MsgTx :=
  if (List.length utxos =? 0)%nat then Fatal ErrNoUnspent else
  let tx := NewMsgTx TxVersion in
  '(tx, totalInput) <- addInputs utxos amount tx 0 ;;
  if totalInput <? Go.add64 amount fee then Fatal ErrInsufficientFunds else
  pkScript <- orFatal (txscript_PayToAddrScript toAddr) ErrPkScript ;;
  let tx := AddTxOut tx (NewTxOut amount pkScript) in
  let change := Go.sub64 (Go.sub64 totalInput amount) fee in
  if change >? 0 then
    changeScript <- orFatal (txscript_PayToAddrScript fromAddr) ErrChangeScript ;;
    Ok (AddTxOut tx (NewTxOut change changeScript))
  else Ok tx.

(** Lines 150-160: [for i, txIn := range tx.TxIn]. *)
Definition signTransaction (tx : MsgTx) (utxos : list ListUnspentResult)
    (wif : WIF) : result MsgTx * list SignRequest :=
  signLoop (seq 0 (List.length (TxIns tx))) utxos wif tx [].

(** The whole function; it returns what it prints, the hash of the
    transaction sent, with that transaction. *)
Definition SendLitecoinTransaction (client : Client) (wif : WIF)
    (toAddress : string) (amountBTC : float) (net : Params)
    : result (TxHash * MsgTx) :=
  fromAddr <- orFatal (btcutil_NewAddressPubKeyHash wif net) ErrFromAddress ;;
  toAddr <- orFatal (btcutil_DecodeAddress toAddress net) ErrInvalidToAddress ;;
  let amount := toAmount amountBTC in
  utxos <- orFatal (rpcclient_ListUnspentMinMaxAddresses client 1 9999999 [fromAddr])
             ErrListUnspent ;;
  tx <- buildTransaction fromAddr toAddr amount utxos ;;
  tx <- fst (signTransaction tx utxos wif) ;;
  txHash <- orFatal (rpcclient_SendRawTransaction client tx false) ErrSend ;;
  Ok (txHash, tx).

(** [SendLitecoinTransaction] reaches its signing stage (line 149) with the
    unspent outputs [utxos] and the unsigned transaction [tx]. *)
Definition reachesSigning (client : Client) (wif : WIF) (toAddress : string)
    (amountBTC : float) (net : Params) (utxos : list ListUnspentResult)
    (tx : MsgTx) : Prop :=
  exists fromAddr toAddr,
    btcutil_NewAddressPubKeyHash wif net = Some fromAddr /\
    btcutil_DecodeAddress toAddress net = Some toAddr /\
    rpcclient_ListUnspentMinMaxAddresses client 1 9999999 [fromAddr] = Some utxos /\
    buildTransaction fromAddr toAddr (toAmount amountBTC) utxos = Ok tx.

End WithBtcSuite.





(** The running [totalInput] after the outputs of [utxos] were added to
    [total] one by one, as the loop computes it. *)
Definition runningTotal (total : Z) (utxos : list ListUnspentResult) : Z :=
  fold_left (fun t u => Go.add64 t (toAmount (Amount u))) utxos total.

(** The unspent outputs an [n]-input transaction spends. *)
Definition selected (tx : MsgTx) (utxos : list ListUnspentResult)
    : list ListUnspentResult :=
  firstn (List.length (TxIns tx)) utxos.






End Litecoin.

(** ** stacks_BC/main.go: account creation *)

Module Stacks.

Record StacksAccount : Type := {
  PrivateKey : string;
  Address : string;
  Mnemonic : string
}.

(** What [createStacksAccount] calls in go-bip39, go-bip32, btcec and the
    hash packages.  [None] is a non-nil [err]. *)
Class Wallet : Type := {
  Key : Type;                                   (* *bip32.Key *)
  key_Key : Key -> list byte;                   (* the field key.Key *)
  bip39_NewMnemonic : list byte -> option string;
  bip39_NewSeed : string -> string -> list byte;
  bip32_NewMasterKey : list byte -> option Key;
  bip32_NewChildKey : Key -> Z -> option Key;   (* key.NewChildKey(childIdx uint32) *)
  (* btcec.PrivKeyFromBytes(k), then pubKey.SerializeCompressed() *)
  btcec_SerializeCompressed : list byte -> list byte;
  sha256_Sum256 : list byte -> list byte;
  ripemd160_Sum : list byte -> list byte;
  ripemd160_Size : forall data, List.length (ripemd160_Sum data) = 20%nat
}.

(** [bip32.FirstHardenedChild]. *)
Definition FirstHardenedChild : Z := 0x80000000.

(** The path of line 70, m/44'/5757'/0'/0/0. *)
Definition stacksPath : list Z :=
  [44 + 0x80000000; 5757 + 0x80000000; 0 + 0x80000000; 0; 0].

(** The high bit of a path element. *)
Definition hardened (index : Z) : bool := Z.testbit index 31.

(** The child number of a path element: its low 31 bits. *)
Definition childNumber (index : Z) : Z := Z.land index 0x7FFFFFFF.

(** [encodeC32Address], lines 222-232. *)
Definition encodeC32Address (version : byte) (hash : list byte) : result string :=
  let data := [version] ++ hash in
  let prefix := if Byte.eqb version x15 then "ST"%string else "SP"%string in
  encoded <- orFatal (Go.stringTo 32 (Go.EncodeToString data)) Panic ;;
  Ok (prefix ++ encoded)%string.

Section WithWallet.
Context `{Wallet}.

(** [hash160], lines 212-217. *)
Definition hash160 (data : list byte) : list byte :=
  let sha256Hash := sha256_Sum256 data in
  ripemd160_Sum sha256Hash.

(** The loop of lines 71-77 over the path elements still to apply. *)
Fixpoint deriveLoop (path : list Z) (key : Key) : result Key :=
  match path with
  | [] => Ok key
  | index :: rest =>
      key <- orFatal (bip32_NewChildKey key index) ErrDeriveKey ;;
      deriveLoop rest key
  end.

(** Lines 64-77 for an arbitrary path: the master key of the seed, then
    the loop. *)
Definition DerivePath (seed : list byte) (path : list Z) : result Key :=
  masterKey <- orFatal (bip32_NewMasterKey seed) ErrMasterKey ;;
  deriveLoop path masterKey.

(** Lines 79-93: the address of a derived key. *)
Definition addressOf (key : Key) (isMainnet : bool) : result string :=
  let privateKey := key_Key key in
  let publicKeyBytes := btcec_SerializeCompressed privateKey in
  let hash := hash160 publicKeyBytes in
  let version := if negb isMainnet then x15 else x1a in
  encodeC32Address version hash.

(** [createStacksAccount]; [entropy] is what [bip39.NewEntropy(256)] drew
    from the system's random source ([None]: it failed). *)
Definition createStacksAccount (entropy : option (list byte)) (isMainnet : bool)
    : result StacksAccount :=
  entropy <- orFatal entropy ErrEntropy ;;
  mnemonic <- orFatal (bip39_NewMnemonic entropy) ErrMnemonic ;;
  let seed := bip39_NewSeed mnemonic "" in
  key <- DerivePath seed stacksPath ;;
  address <- addressOf key isMainnet ;;
  Ok {| PrivateKey := Go.EncodeToString (key_Key key);
        Address := address;
        Mnemonic := mnemonic |}.

(** The same loop as a transition system: a state is the key reached and
    the path elements still to apply, or the end of the loop. *)
Inductive loopState : Type :=
  | Deriving (key : Key) (rest : list Z)
  | Finished (outcome : result Key).

Inductive step : loopState -> loopState -> Prop :=
  | step_child key index rest key' :
      bip32_NewChildKey key index = Some key' ->
      step (Deriving key (index :: rest)) (Deriving key' rest)
  | step_fatal key index rest :
      bip32_NewChildKey key index = None ->
      step (Deriving key (index :: rest)) (Finished (Fatal ErrDeriveKey))
  | step_exit key :
      step (Deriving key []) (Finished (Ok key)).

Inductive steps : loopState -> loopState -> Prop :=
  | steps_refl s : steps s s
  | steps_step s1 s2 s3 : step s1 s2 -> steps s2 s3 -> steps s1 s3.

(** A complete execution of lines 64-77 on [seed] and [path] with outcome
    [r]. *)
Inductive runs (seed : list byte) (path : list Z) : result Key -> Prop :=
  | runs_no_master :
      bip32_NewMasterKey seed = None ->
      runs seed path (Fatal ErrMasterKey)
  | runs_loop masterKey r :
      bip32_NewMasterKey seed = Some masterKey ->
      steps (Deriving masterKey path) (Finished r) ->
      runs seed path r.

(** The derivation of the spec, [DeriveChild(parent, index, hardened)] with
    the flag as an argument of its own: go-bip32 has no such argument, a
    hardened child is the one whose index has the high bit set. *)
Definition DeriveChild (parent : Key) (number : Z) (isHardened : bool) : option Key :=
  bip32_NewChildKey parent (if isHardened then number + FirstHardenedChild else number).

(** [DerivePath] in the spec's words: [DeriveChild] applied sequentially,
    the hardened flag taken from each element's high bit. *)
Fixpoint DerivePathSpec (path : list Z) (key : Key) : result Key :=
  match path with
  | [] => Ok key
  | index :: rest =>
      match DeriveChild key (childNumber index) (hardened index) with
      | Some child => DerivePathSpec rest child
      | None => Fatal ErrDeriveKey
      end
  end.

End WithWallet.

End Stacks.

(** ** tron/main.go: the address of a public key *)

Module Tron.

(** What [deriveTronAddress] calls in go-ethereum's crypto, crypto/sha256,
    base58 and gotron's address package. *)
Class TronLibs : Type := {
  PublicKey : Type;                             (* *ecdsa.PublicKey *)
  Address : Type;                               (* address.Address *)
  crypto_FromECDSAPub : PublicKey -> list byte;
  crypto_Keccak256 : list byte -> list byte;
  sha256_Sum256 : list byte -> list byte;
  base58_Encode : list byte -> string;
  address_Base58ToAddress : string -> option Address;
  (* 0x04, X and Y: 65 bytes; the digests are 32 bytes *)
  FromECDSAPub_length : forall pub, List.length (crypto_FromECDSAPub pub) = 65%nat;
  Keccak256_length : forall data, List.length (crypto_Keccak256 data) = 32%nat;
  Sum256_length : forall data, List.length (sha256_Sum256 data) = 32%nat
}.

Section WithTronLibs.
Context `{TronLibs}.

(** Lines 165-175: the Base58 text of the address. *)
Definition tronBase58 (publicKeyECDSA : PublicKey) : result string :=
  let publicKeyBytes := crypto_FromECDSAPub publicKeyECDSA in
  tail <- orFatal (Go.sliceFrom 1 publicKeyBytes) Panic ;;
  let hash := crypto_Keccak256 tail in
  ethAddress <- orFatal (Go.sliceFrom 12 hash) Panic ;;
  let tronAddrBytes := [x41] ++ ethAddress in
  let h1 := sha256_Sum256 tronAddrBytes in
  let h2 := sha256_Sum256 h1 in
  checksum <- orFatal (Go.sliceTo 4 h2) Panic ;;
  let tronAddrBytes := tronAddrBytes ++ checksum in
  Ok (base58_Encode tronAddrBytes).

(** [deriveTronAddress], lines 164-181. *)
Definition deriveTronAddress (publicKeyECDSA : PublicKey) : result Address :=
  base58Addr <- tronBase58 publicKeyECDSA ;;
  orFatal (address_Base58ToAddress base58Addr) ErrDeriveAddress.

(** The encoder in the spec's words. *)

(** "takes the last 20 bytes" *)
Definition lastBytes (n : nat) (data : list byte) : list byte :=
  skipn (List.length data - n) data.

(** "prefixes version byte, appends first 4 bytes of
    SHA256(SHA256(versioned_payload)) as checksum, Base58-encodes the
    result" *)
Definition Base58Check (version : byte) (payload : list byte) : string :=
  let versioned := version :: payload in
  base58_Encode (versioned ++ firstn 4 (sha256_Sum256 (sha256_Sum256 versioned))).

(** "uncompressed public key minus the leading format byte; computes
    Keccak256(pubkey), takes the last 20 bytes as the address payload" *)
Definition keccakPayload (uncompressed : list byte) : list byte :=
  lastBytes 20 (crypto_Keccak256 (tl uncompressed)).

Definition tronAddressSpec (uncompressed : list byte) : string :=
  Base58Check x41 (keccakPayload uncompressed).

End WithTronLibs.

End Tron.

(** ** Test doubles and fixed inputs

    Small stand-ins for the third-party packages, and the inputs the
    theorems are instantiated at. *)

Module Fixtures.

Set Warnings "-inexact-float".

(** A btcd stand-in: an address is its text, its script the text's length
    as one byte, the node answers with the unspent outputs it was built
    from, and the signer returns the locking script it was handed. *)
Definition btcd : Litecoin.BtcSuite := {|
  Litecoin.Address := string;
  Litecoin.WIF := unit;
  Litecoin.Params := unit;
  Litecoin.Client := list Litecoin.ListUnspentResult;
  Litecoin.TxHash := nat;
  Litecoin.btcutil_NewAddressPubKeyHash := fun _ _ => Some "LfromAddress"%string;
  Litecoin.btcutil_DecodeAddress := fun s _ => Some s;
  Litecoin.rpcclient_ListUnspentMinMaxAddresses := fun c _ _ _ => Some c;
  Litecoin.txscript_PayToAddrScript :=
    fun a => Some [Go.byte_of_N (N.of_nat (String.length a))];
  Litecoin.txscript_SignatureScript := fun _ _ script _ => Some script;
  Litecoin.rpcclient_SendRawTransaction :=
    fun _ tx _ => Some (List.length (Litecoin.TxIns tx))
|}.

Definition utxo (txid : string) (vout : Z) (amount : float) : Litecoin.ListUnspentResult :=
  {| Litecoin.TxID := txid; Litecoin.Vout := vout;
     Litecoin.ScriptPubKey := ("76a914" ++ txid ++ "88ac")%string;
     Litecoin.Amount := amount |}.

(** Unspent outputs of 5000, 3000 and 2000 satoshis: 5, 3 and 2 times the
    fee. *)
Definition u5 : Litecoin.ListUnspentResult := utxo "a5" 0 0.00005.
Definition u3 : Litecoin.ListUnspentResult := utxo "b3" 1 0.00003.
Definition u2 : Litecoin.ListUnspentResult := utxo "c2" 0 0.00002.

Definition uBadTxid : Litecoin.ListUnspentResult := utxo "xyz" 0 0.00000004.


(** A wallet stand-in: a key is its bytes, a child key appends the low
    byte of the index, and every digest is twenty bytes of the input
    (padded with zeros). *)
Definition pad20 (data : list byte) : list byte := Go.copyInto 20 data.

Lemma pad20_length (data : list byte) : List.length (pad20 data) = 20%nat.
Proof.
  unfold pad20, Go.copyInto.
  rewrite length_app, repeat_length, length_firstn. lia.
Qed.

Definition wallet : Stacks.Wallet := {|
  Stacks.Key := list byte;
  Stacks.key_Key := fun k => k;
  Stacks.bip39_NewMnemonic := fun e => Some (Go.EncodeToString e);
  Stacks.bip39_NewSeed := fun m _ =>
    match Go.DecodeString m with Some b => b | None => [] end;
  Stacks.bip32_NewMasterKey := fun seed => Some seed;
  Stacks.bip32_NewChildKey :=
    fun k i => Some (k ++ [Go.byte_of_N (Z.to_N (i mod 256))]);
  Stacks.btcec_SerializeCompressed := fun k => x02 :: k;
  Stacks.sha256_Sum256 := fun d => d;
  Stacks.ripemd160_Sum := pad20;
  Stacks.ripemd160_Size := pad20_length
|}.

(** Two 20-byte hashes that differ in their last byte only. *)
Definition hashA : list byte := repeat x00 19 ++ [x00].
Definition hashB : list byte := repeat x00 19 ++ [x01].

(** A Tron stand-in: a public key is its 64 bytes of X and Y, each digest
    is the first 32 bytes of its input (padded with zeros), and Base58 is
    replaced by hexadecimal text. *)
Definition pad (n : nat) (data : list byte) : list byte := Go.copyInto n data.

Lemma pad_length (n : nat) (data : list byte) : List.length (pad n data) = n.
Proof.
  unfold pad, Go.copyInto.
  rewrite length_app, repeat_length, length_firstn. lia.
Qed.

Definition tron : Tron.TronLibs := {|
  Tron.PublicKey := list byte;
  Tron.Address := list byte;
  Tron.crypto_FromECDSAPub := fun pub => x04 :: pad 64 pub;
  Tron.crypto_Keccak256 := pad 32;
  Tron.sha256_Sum256 := pad 32;
  Tron.base58_Encode := Go.EncodeToString;
  Tron.address_Base58ToAddress :=
    fun s => option_map (firstn 21) (Go.DecodeString s);
  Tron.FromECDSAPub_length := fun pub => f_equal S (pad_length 64 pub);
  Tron.Keccak256_length := pad_length 32;
  Tron.Sum256_length := pad_length 32
|}.

Definition pubkey : list byte := [x01; x02; x03].

End Fixtures.

(** ** The account functions of the three files

    [loadStacksAccount], tron's [CreateAccount] and [LoadAccount],
    [LoadLitecoinAccount], and [GetStellarBalance] of the Stellar script
    that shares LITECOIN/main.go. *)

(** Their failures: the messages not met above, and [Earlier] for a
    failure of a function modelled above. *)
Inductive fault : Type :=
  | ErrInvalidPrivateKey    (* "Invalid private key" *)
  | ErrGenerateKey          (* "Failed to generate private key" *)
  | ErrCannotAssert         (* "Cannot assert type: publicKey is not of type *ecdsa.PublicKey" *)
  | ErrCreateAddress        (* "Failed to create address" *)
  | ErrInvalidWIF           (* "Invalid WIF" *)
  | Earlier (e : failure).

Inductive attempt (A : Type) : Type :=
  | Done (a : A)
  | Failed (f : fault).

Arguments Done {A} a.
Arguments Failed {A} f.

Definition andThen {A B : Type} (r : attempt A) (k : A -> attempt B) : attempt B :=
  match r with
  | Done a => k a
  | Failed f => Failed f
  end.

Definition orFailed {A : Type} (o : option A) (f : fault) : attempt A :=
  match o with
  | Some a => Done a
  | None => Failed f
  end.

Definition earlier {A : Type} (r : result A) : attempt A :=
  match r with
  | Ok a => Done a
  | Fatal e => Failed (Earlier e)
  end.

Notation "x <~ r ;; k" := (andThen r (fun x => k))
  (at level 61, r at next level, right associativity) : result_scope.

(** Text that [hex.DecodeString] accepts, in the words of its
    documentation: an even number of characters, each a hexadecimal digit
    of either case. *)
Definition isHexDigit (c : ascii) : bool :=
  let n := N_of_ascii c in
  (((48 <=? n) && (n <=? 57)) || ((97 <=? n) && (n <=? 102))
   || ((65 <=? n) && (n <=? 70)))%N.

Definition isHexText (s : string) : bool :=
  Nat.even (String.length s) && forallb isHexDigit (list_ascii_of_string s).

(** *** stacks_BC/main.go *)

Module StacksLoad.

Import Stacks.

(** [connectStacksAPI], lines 42-47. *)
Definition connectStacksAPI (isMainnet : bool) : string :=
  if isMainnet then "https://api.mainnet.hiro.so"%string
  else "https://api.testnet.hiro.so"%string.

Section WithWallet.
Context `{Wallet}.

(** [loadStacksAccount], lines 110-132. *)
Definition loadStacksAccount (privateKeyHex : string) (isMainnet : bool)
    : attempt StacksAccount :=
  privateKeyBytes <~ orFailed (Go.DecodeString privateKeyHex) ErrInvalidPrivateKey ;;
  let publicKeyBytes := btcec_SerializeCompressed privateKeyBytes in
  let hash := hash160 publicKeyBytes in
  let version := if negb isMainnet then x15 else x1a in
  address <~ earlier (encodeC32Address version hash) ;;
  Done {| PrivateKey := privateKeyHex;
          Address := address;
          Mnemonic := EmptyString |}.

End WithWallet.

End StacksLoad.

(** *** tron/main.go *)

Module TronAccounts.

Import Tron.

(** What [CreateAccount] and [LoadAccount] call beside [TronLibs]. *)
Class TronKeys `{TronLibs} : Type := {
  PrivateKey : Type;                            (* *ecdsa.PrivateKey *)
  crypto_HexToECDSA : string -> option PrivateKey;
  crypto_FromECDSA : PrivateKey -> list byte;
  (* privateKey.Public(), then the assertion publicKey.( *ecdsa.PublicKey);
     None when ok is false *)
  Public : PrivateKey -> option PublicKey
}.

Section WithTronKeys.
Context `{TronKeys}.

(** [CreateAccount], lines 38-74; [generated] is what
    [ecdsa.GenerateKey(crypto.S256(), rand.Reader)] returned. *)
Definition CreateAccount (generated : option PrivateKey) : attempt (string * Address) :=
  privateKey <~ orFailed generated ErrGenerateKey ;;
  let privateKeyBytes := crypto_FromECDSA privateKey in
  let privateKeyHex := Go.EncodeToString privateKeyBytes in
  publicKeyECDSA <~ orFailed (Public privateKey) ErrCannotAssert ;;
  let publicKeyBytes := crypto_FromECDSAPub publicKeyECDSA in
  tail <~ orFailed (Go.sliceFrom 1 publicKeyBytes) (Earlier Panic) ;;
  let hash := crypto_Keccak256 tail in
  ethAddress <~ orFailed (Go.sliceFrom 12 hash) (Earlier Panic) ;;
  let tronAddrBytes := [x41] ++ ethAddress in
  let h1 := sha256_Sum256 tronAddrBytes in
  let h2 := sha256_Sum256 h1 in
  checksum <~ orFailed (Go.sliceTo 4 h2) (Earlier Panic) ;;
  let tronAddrBytes := tronAddrBytes ++ checksum in
  let base58Addr := base58_Encode tronAddrBytes in
  addr <~ orFailed (address_Base58ToAddress base58Addr) ErrCreateAddress ;;
  Done (privateKeyHex, addr).

(** [LoadAccount], lines 79-108. *)
Definition LoadAccount (privateKeyHex : string) : attempt (PrivateKey * Address) :=
  privateKey <~ orFailed (crypto_HexToECDSA privateKeyHex) ErrInvalidPrivateKey ;;
  publicKeyECDSA <~ orFailed (Public privateKey) ErrCannotAssert ;;
  let publicKeyBytes := crypto_FromECDSAPub publicKeyECDSA in
  tail <~ orFailed (Go.sliceFrom 1 publicKeyBytes) (Earlier Panic) ;;
  let hash := crypto_Keccak256 tail in
  ethAddress <~ orFailed (Go.sliceFrom 12 hash) (Earlier Panic) ;;
  let tronAddrBytes := [x41] ++ ethAddress in
  let h1 := sha256_Sum256 tronAddrBytes in
  let h2 := sha256_Sum256 h1 in
  checksum <~ orFailed (Go.sliceTo 4 h2) (Earlier Panic) ;;
  let tronAddrBytes := tronAddrBytes ++ checksum in
  let base58Addr := base58_Encode tronAddrBytes in
  addr <~ orFailed (address_Base58ToAddress base58Addr) ErrCreateAddress ;;
  Done (privateKey, addr).

(** The sender of [SendTransaction], lines 132-138: the public key of the
    private key, then [deriveTronAddress]. *)
Definition senderOf (privateKey : PrivateKey) : attempt Address :=
  publicKeyECDSA <~ orFailed (Public privateKey) ErrCannotAssert ;;
  earlier (deriveTronAddress publicKeyECDSA).

End WithTronKeys.

End TronAccounts.

(** *** LITECOIN/main.go *)

Module LitecoinAccounts.

Import Litecoin.

(** What [LoadLitecoinAccount] calls beside [BtcSuite]. *)
Class BtcAccounts `{BtcSuite} : Type := {
  btcutil_DecodeWIF : string -> option WIF;
  EncodeAddress : Address -> string             (* addr.EncodeAddress() *)
}.

Section WithBtcAccounts.
Context `{BtcAccounts}.

(** [LoadLitecoinAccount], lines 62-75; a failure is its returned [error]. *)
Definition LoadLitecoinAccount (wifStr : string) (net : Params)
    : attempt (WIF * string) :=
  wif <~ orFailed (btcutil_DecodeWIF wifStr) ErrInvalidWIF ;;
  addr <~ orFailed (btcutil_NewAddressPubKeyHash wif net) ErrCreateAddress ;;
  Done (wif, EncodeAddress addr).

End WithBtcAccounts.

End LitecoinAccounts.

(** *** The Stellar script of LITECOIN/main.go *)

Module Stellar.

(** [hProtocol.Balance], the fields the code reads ([AssetType] is
    [balance.Asset.Type]). *)
Record Balance : Type := {
  BalanceText : string;     (* the field Balance *)
  AssetType : string
}.

(** The Horizon client and [math/big]. *)
Class Horizon : Type := {
  Client : Type;
  Float : Type;                                 (* big.Float *)
  (* client.AccountDetail(AccountRequest{AccountID: address}), the
     Balances of the account; None is a non-nil err *)
  AccountDetail : Client -> string -> option (list Balance);
  (* new(big.Float).SetString(s); None is the nil it returns on failure *)
  big_SetString : string -> option Float
}.

Section WithHorizon.
Context `{Horizon}.

(** The loop of lines 274-280 over the balances still to visit; [None] is
    the nil [balanceXLM]. *)
Fixpoint nativeBalance (balances : list Balance) : option Float :=
  match balances with
  | [] => None
  | balance :: rest =>
      if String.eqb (AssetType balance) "native"
      then big_SetString (BalanceText balance)
      else nativeBalance rest
  end.

(** [GetStellarBalance], lines 266-282. *)
Definition GetStellarBalance (client : Client) (address : string) : option Float :=
  match AccountDetail client address with
  | None => None
  | Some balances => nativeBalance balances
  end.

End WithHorizon.

End Stellar.

(** Stand-ins for the account functions. *)

Module AccountFixtures.

(** Tron keys: a private key is its bytes, read from hexadecimal text; the
    public key is the private key's bytes. *)
Definition tronKeys : @TronAccounts.TronKeys Fixtures.tron := {|
  TronAccounts.PrivateKey := list byte;
  TronAccounts.crypto_HexToECDSA := Go.DecodeString;
  TronAccounts.crypto_FromECDSA := fun k => k;
  TronAccounts.Public :=
    fun k : list byte => @Some (@Tron.PublicKey Fixtures.tron) k
|}.

(** Litecoin accounts: a WIF text decodes when it is not empty, and an
    address is encoded as itself. *)
Definition btcAccounts : @LitecoinAccounts.BtcAccounts Fixtures.btcd := {|
  LitecoinAccounts.btcutil_DecodeWIF :=
    fun s => match s with
             | EmptyString => None
             | _ => @Some (@Litecoin.WIF Fixtures.btcd) tt
             end;
  LitecoinAccounts.EncodeAddress := fun a : string => a
|}.

(** Horizon: the account "GA" holds a credit balance, a native balance of
    12.5 and a second native balance; a number is kept as its text, and the
    empty text is not a number. *)
Definition balancesGA : list Stellar.Balance :=
  [ {| Stellar.BalanceText := "7.0"; Stellar.AssetType := "credit_alphanum4" |};
    {| Stellar.BalanceText := "12.5"; Stellar.AssetType := "native" |};
    {| Stellar.BalanceText := "99.0"; Stellar.AssetType := "native" |} ].

Definition horizon : Stellar.Horizon := {|
  Stellar.Client := unit;
  Stellar.Float := string;
  Stellar.AccountDetail :=
    fun _ address => if String.eqb address "GA" then Some balancesGA else None;
  Stellar.big_SetString :=
    fun s => match s with EmptyString => None | _ => Some s end
|}.

End AccountFixtures.

(* ================================================================== *)
(** * Part II: properties                                              *)
(* ================================================================== *)

(** ** Integer arithmetic *)


Lemma wrap64_range (z : Z) : Go.in_int64 (Go.wrap64 z).
Proof.
  unfold Go.in_int64, Go.MinInt64, Go.MaxInt64, Go.wrap64.
  pose proof (Z.mod_pos_bound (z + 2 ^ 63) (2 ^ 64) ltac:(lia)). lia.
Qed.

Lemma float64_to_int64_range (f : float) : Go.in_int64 (Go.float64_to_int64 f).
Proof.
  unfold Go.float64_to_int64.
  destruct (Prim2SF f) as [s | s | | s m e];
    try (unfold Go.in_int64, Go.MinInt64, Go.MaxInt64; lia).
  set (v := if s then _ else _).
  destruct ((Go.MinInt64 <=? v) && (v <=? Go.MaxInt64)) eqn:E.
  - apply andb_true_iff in E. destruct E as [E1 E2].
    apply Z.leb_le in E1, E2. split; assumption.
  - unfold Go.in_int64, Go.MinInt64, Go.MaxInt64; lia.
Qed.

Lemma toAmount_range (f : float) : Go.in_int64 (Litecoin.toAmount f).
Proof. apply float64_to_int64_range. Qed.

(** ** [SendLitecoinTransaction]: the input loop *)

Section LitecoinInputs.

Import Litecoin.





Lemma runningTotal_app (l1 l2 : list ListUnspentResult) (total : Z) :
  runningTotal total (l1 ++ l2) = runningTotal (runningTotal total l1) l2.
Proof. unfold runningTotal. apply fold_left_app. Qed.

(** What a successful run of the loop did: it consumed the first [k]
    unspent outputs, in order, and [k] is the first count at which the
    running total reached [amount + fee] (or the whole list). *)
Lemma addInputs_inv (utxos : list ListUnspentResult) :
  forall amount tx total tx' total',
    addInputs utxos amount tx total = Ok (tx', total') ->
    exists (k : nat) (ins : list TxIn),
      (k <= List.length utxos)%nat /\
      (utxos <> [] -> (0 < k)%nat) /\
      Forall2 (fun u ti => inputOf u = Some ti) (firstn k utxos) ins /\
      tx' = {| Version := Version tx; TxIns := TxIns tx ++ ins;
               TxOuts := TxOuts tx; LockTime := LockTime tx |} /\
      total' = runningTotal total (firstn k utxos) /\
      (forall j, (0 < j < k)%nat ->
         runningTotal total (firstn j utxos) < Go.add64 amount fee) /\
      (Go.add64 amount fee <= total' \/ k = List.length utxos).
Proof.
  induction utxos as [| u rest IH]; intros amount tx total tx' total' Hrun.
  - simpl in Hrun. inversion Hrun; subst.
    exists 0%nat, []. simpl. rewrite app_nil_r.
    split; [lia |]. split; [congruence |]. split; [constructor |].
    split; [destruct tx'; reflexivity |]. split; [reflexivity |].
    split; [intros j Hj; lia | right; reflexivity].
  - simpl in Hrun.
    destruct (inputOf u) as [ti |] eqn:Hin; simpl in Hrun; [| discriminate].
    set (t1 := Go.add64 total (toAmount (Amount u))) in *.
    destruct (t1 >=? Go.add64 amount fee) eqn:Hcmp.
    + inversion Hrun; subst.
      exists 1%nat, [ti]. simpl.
      split; [lia |]. split; [lia |].
      split; [constructor; [assumption | constructor] |].
      split; [reflexivity |]. split; [reflexivity |].
      split; [intros j Hj; lia |].
      left. apply Z.geb_le in Hcmp. exact Hcmp.
    + apply IH in Hrun.
      destruct Hrun as (k & ins & Hk & _ & Hins & Htx & Htot & Hmin & Hend).
      exists (S k), (ti :: ins). simpl.
      split; [lia |]. split; [lia |].
      split; [constructor; assumption |].
      split; [rewrite Htx; simpl; rewrite <- app_assoc; reflexivity |].
      split; [exact Htot |].
      split.
      * intros [| j] Hj; [lia |]. simpl.
        destruct j as [| j].
        -- simpl. fold t1. rewrite Z.geb_leb in Hcmp.
           apply Z.leb_gt in Hcmp. exact Hcmp.
        -- apply (Hmin (S j)). lia.
      * destruct Hend as [Hend | Hend]; [left; exact Hend | right; lia].
Qed.

Lemma Forall2_length_firstn {A B : Type} (R : A -> B -> Prop) (k : nat)
    (l : list A) (l' : list B) :
  (k <= List.length l)%nat -> Forall2 R (firstn k l) l' -> List.length l' = k.
Proof.
  intros Hk HF. apply Forall2_length in HF.
  rewrite length_firstn in HF. lia.
Qed.

End LitecoinInputs.

(** ** [SendLitecoinTransaction]: the transaction built *)

Section LitecoinBuild.

Import Litecoin.
Context `{BtcSuite}.

(** The loop fails only on a txid that is not hexadecimal. *)
Lemma addInputs_fatal (utxos : list ListUnspentResult) :
  forall amount tx total e,
    addInputs utxos amount tx total = Fatal e -> e = ErrInvalidTxid.
Proof.
  induction utxos as [| u rest IH]; intros amount tx total e Hrun; simpl in Hrun.
  - discriminate.
  - destruct (inputOf u) as [ti |]; simpl in Hrun; [| congruence].
    destruct (_ >=? _); [discriminate | eauto].
Qed.


(** What a successful [buildTransaction] did. *)
Lemma buildTransaction_inv (fromAddr toAddr : Address) (amount : Z)
    (utxos : list ListUnspentResult) (tx : MsgTx) :
  buildTransaction fromAddr toAddr amount utxos = Ok tx ->
  exists (k : nat) (ins : list TxIn) (pkScript : list byte) (outs : list TxOut),
    (0 < k <= List.length utxos)%nat /\
    List.length ins = k /\
    Forall2 (fun u ti => inputOf u = Some ti) (firstn k utxos) ins /\
    (forall j, (0 < j < k)%nat ->
       runningTotal 0 (firstn j utxos) < Go.add64 amount fee) /\
    Go.add64 amount fee <= runningTotal 0 (firstn k utxos) /\
    txscript_PayToAddrScript toAddr = Some pkScript /\
    tx = {| Version := TxVersion; TxIns := ins;
            TxOuts := NewTxOut amount pkScript :: outs; LockTime := 0 |} /\
    let change :=
      Go.sub64 (Go.sub64 (runningTotal 0 (firstn k utxos)) amount) fee in
    ((0 < change /\
      exists changeScript,
        txscript_PayToAddrScript fromAddr = Some changeScript /\
        outs = [NewTxOut change changeScript]) \/
     (change <= 0 /\ outs = [])).
Proof.
  unfold buildTransaction. intros Hrun.
  destruct (List.length utxos =? 0)%nat eqn:Hlen; [discriminate |].
  apply Nat.eqb_neq in Hlen.
  destruct (addInputs utxos amount (NewMsgTx TxVersion) 0) as [[tx1 total] | e] eqn:Hadd;
    simpl in Hrun; [| discriminate].
  apply addInputs_inv in Hadd.
  destruct Hadd as (k & ins & Hk & Hpos & Hins & Htx & Htot & Hmin & _).
  destruct (total <? Go.add64 amount fee) eqn:Hcmp; [discriminate |].
  apply Z.ltb_ge in Hcmp.
  destruct (txscript_PayToAddrScript toAddr) as [pkScript |] eqn:Hpk;
    simpl in Hrun; [| discriminate].
  assert (Hk0 : (0 < k)%nat).
  { apply Hpos. intros ->. simpl in Hlen. lia. }
  pose proof (Forall2_length_firstn _ _ _ _ Hk Hins) as Hlenins.
  subst tx1 total. simpl in Hrun.
  destruct (_ >? 0) eqn:Hchange in Hrun.
  - destruct (txscript_PayToAddrScript fromAddr) as [cs |] eqn:Hcs;
      simpl in Hrun; [| discriminate].
    inversion Hrun; subst tx. clear Hrun.
    exists k, ins, pkScript, [NewTxOut
      (Go.sub64 (Go.sub64 (runningTotal 0 (firstn k utxos)) amount) fee) cs].
    repeat (split; [first [assumption | lia | reflexivity] |]).
    left. split; [apply Z.gtb_lt in Hchange; lia |].
    exists cs. split; [first [assumption | reflexivity] | reflexivity].
  - inversion Hrun; subst tx. clear Hrun.
    exists k, ins, pkScript, [].
    repeat (split; [first [assumption | lia | reflexivity] |]).
    right. split; [| reflexivity].
    rewrite Z.gtb_ltb in Hchange. apply Z.ltb_ge in Hchange. exact Hchange.
Qed.




End LitecoinBuild.

(** ** [SendLitecoinTransaction]: the signing loop *)

Section LitecoinSigning.

Import Litecoin.
Context `{BtcSuite}.

Lemma setNth_map {A B : Type} (f : A -> B) (g : A -> A) (l : list A) :
  (forall x, f (g x) = f x) -> forall i, map f (setNth i g l) = map f l.
Proof.
  intros Hfg. induction l as [| x rest IH]; intros [| i]; simpl;
    rewrite ?Hfg, ?IH; reflexivity.
Qed.



End LitecoinSigning.

(** ** [SendLitecoinTransaction]: fee accounting *)

Section LitecoinFee.

Import Litecoin.
Context `{BtcSuite}.



End LitecoinFee.






(** ** [SendLitecoinTransaction]: coin selection *)

Section LitecoinSelection.

Import Litecoin.



End LitecoinSelection.




(** ** [SendLitecoinTransaction]: the outputs *)

Section LitecoinOutputs.

Import Litecoin.
Context `{BtcSuite}.


End LitecoinOutputs.



(** ** [SendLitecoinTransaction]: inputs and unspent outputs stay aligned *)

Section LitecoinAlignment.

Import Litecoin.
Context `{BtcSuite}.




End LitecoinAlignment.


(** ** [createStacksAccount]: the derivation loop *)

Section StacksDerivation.

Import Stacks.
Context `{Wallet}.

Lemma step_deterministic (s s1 s2 : loopState) :
  step s s1 -> step s s2 -> s1 = s2.
Proof.
  intros H1 H2. inversion H1; subst; inversion H2; subst; congruence.
Qed.

Lemma Finished_stuck (r : result Key) (s : loopState) : ~ step (Finished r) s.
Proof. intros Hstep. inversion Hstep. Qed.

(** Two executions from one state that both end, end alike. *)
Lemma steps_deterministic (s : loopState) (r1 r2 : result Key) :
  steps s (Finished r1) -> steps s (Finished r2) -> r1 = r2.
Proof.
  intros H1. revert r2.
  remember (Finished r1) as final eqn:Hfinal.
  induction H1 as [s | s s' s'' Hstep Hrest IH]; intros r2 H2; subst.
  - inversion H2 as [| ? ? ? Hstep _]; subst; [reflexivity |].
    exfalso. eapply Finished_stuck; eassumption.
  - inversion H2 as [| ? s2 ? Hstep2 Hrest2]; subst.
    + exfalso. eapply Finished_stuck; eassumption.
    + rewrite (step_deterministic _ _ _ Hstep Hstep2) in *.
      apply IH; [reflexivity | assumption].
Qed.

(** The loop always ends, in the outcome [deriveLoop] computes. *)
Lemma steps_deriveLoop (path : list Z) :
  forall key, steps (Deriving key path) (Finished (deriveLoop path key)).
Proof.
  induction path as [| index rest IH]; intros key; simpl.
  - eapply steps_step; [apply step_exit | apply steps_refl].
  - destruct (bip32_NewChildKey key index) as [child |] eqn:Hchild; simpl.
    + eapply steps_step; [apply step_child; eassumption | apply IH].
    + eapply steps_step; [apply step_fatal; assumption | apply steps_refl].
Qed.

Lemma runs_DerivePath (seed : list byte) (path : list Z) :
  runs seed path (DerivePath seed path).
Proof.
  unfold DerivePath.
  destruct (bip32_NewMasterKey seed) as [masterKey |] eqn:Hmaster; simpl.
  - eapply runs_loop; [eassumption | apply steps_deriveLoop].
  - apply runs_no_master. assumption.
Qed.

(** C1 -- Key derivation is deterministic.  For every seed and every
    path, any two executions of the derivation (the master key of the seed,
    then the loop of [createStacksAccount] over the path) end in the same
    outcome, the one [DerivePath] computes; so two derived keys have the
    same private key bytes and the same address on either network. *)
Theorem key_derivation_deterministic (seed : list byte) (path : list Z)
    (r1 r2 : result Key) :
  runs seed path r1 ->
  runs seed path r2 ->
  r1 = r2 /\
  r1 = DerivePath seed path /\
  (forall key1 key2, r1 = Ok key1 -> r2 = Ok key2 ->
     key_Key key1 = key_Key key2 /\
     Go.EncodeToString (key_Key key1) = Go.EncodeToString (key_Key key2) /\
     forall isMainnet, addressOf key1 isMainnet = addressOf key2 isMainnet).
Proof.
  assert (Hdet : forall r r', runs seed path r -> runs seed path r' -> r = r').
  { intros r r' Hr Hr'.
    destruct Hr as [Hnone | masterKey r Hmaster Hsteps];
      destruct Hr' as [Hnone' | masterKey' r' Hmaster' Hsteps']; try congruence.
    assert (masterKey' = masterKey) by congruence. subst masterKey'.
    eapply steps_deterministic; eassumption. }
  intros Hr1 Hr2.
  split; [apply Hdet; assumption |].
  split; [apply Hdet; [assumption | apply runs_DerivePath] |].
  intros key1 key2 -> ->.
  assert (Heq : Ok key1 = Ok key2) by (apply Hdet; assumption).
  inversion Heq; subst. auto.
Qed.

(** An account is a function of its mnemonic: two accounts created with
    the same mnemonic, from whatever entropy, have the same private key and
    the same address. *)
Lemma createStacksAccount_by_mnemonic (entropy1 entropy2 : option (list byte))
    (isMainnet : bool) (a1 a2 : StacksAccount) :
  createStacksAccount entropy1 isMainnet = Ok a1 ->
  createStacksAccount entropy2 isMainnet = Ok a2 ->
  Mnemonic a1 = Mnemonic a2 ->
  PrivateKey a1 = PrivateKey a2 /\ Address a1 = Address a2.
Proof.
  unfold createStacksAccount. intros H1 H2 Hm.
  destruct entropy1 as [e1 |]; simpl in H1; [| discriminate].
  destruct entropy2 as [e2 |]; simpl in H2; [| discriminate].
  destruct (bip39_NewMnemonic e1) as [m1 |]; simpl in H1; [| discriminate].
  destruct (bip39_NewMnemonic e2) as [m2 |]; simpl in H2; [| discriminate].
  destruct (DerivePath (bip39_NewSeed m1 "") stacksPath) as [k1 |] eqn:Hk1;
    simpl in H1; [| discriminate].
  destruct (DerivePath (bip39_NewSeed m2 "") stacksPath) as [k2 |] eqn:Hk2;
    simpl in H2; [| discriminate].
  destruct (addressOf k1 isMainnet) as [addr1 |] eqn:Ha1; simpl in H1; [| discriminate].
  destruct (addressOf k2 isMainnet) as [addr2 |] eqn:Ha2; simpl in H2; [| discriminate].
  inversion H1; subst a1. inversion H2; subst a2. simpl in *. subst m2.
  assert (k1 = k2) by congruence. subst k2.
  split; [reflexivity | congruence].
Qed.

(** A path element of 32 bits is its child number, plus [2^31] when its
    high bit is set. *)
Lemma index_of_childNumber (index : Z) :
  0 <= index <= Go.MaxUint32 ->
  (if hardened index then childNumber index + FirstHardenedChild
   else childNumber index) = index.
Proof.
  unfold hardened, childNumber, FirstHardenedChild, Go.MaxUint32. intros Hrange.
  change 0x7FFFFFFF with (Z.ones 31). rewrite Z.land_ones by lia.
  rewrite Z.testbit_eqb by lia. change (2 ^ 1) with 2.
  pose proof (Z.div_mod index (2 ^ 31) ltac:(lia)) as Hdm.
  assert (Hq : 0 <= index / 2 ^ 31 < 2).
  { split; [apply Z.div_pos; lia | apply Z.div_lt_upper_bound; lia]. }
  assert (Hcases : index / 2 ^ 31 = 0 \/ index / 2 ^ 31 = 1) by lia.
  destruct Hcases as [Hz | Ho]; rewrite ?Hz, ?Ho in *; simpl; lia.
Qed.

Lemma hardened_iff (index : Z) :
  0 <= index <= Go.MaxUint32 ->
  hardened index = true <-> FirstHardenedChild <= index.
Proof.
  intros Hrange. pose proof (index_of_childNumber index Hrange) as Hidx.
  unfold childNumber, FirstHardenedChild, Go.MaxUint32 in *.
  change 0x7FFFFFFF with (Z.ones 31) in Hidx. rewrite Z.land_ones in Hidx by lia.
  pose proof (Z.mod_pos_bound index (2 ^ 31) ltac:(lia)) as Hmod.
  destruct (hardened index); split; intros Hh; try reflexivity; try discriminate; lia.
Qed.

(** C6 -- [DerivePath] applies [DeriveChild] sequentially over the path,
    the hardened flag of each step being the high bit of the element: on
    32-bit elements the loop of [createStacksAccount] is that derivation, an
    element is hardened exactly from [2^31] on, and the Stacks path is
    [44+2^31, 5757+2^31, 0+2^31, 0, 0], three hardened steps and two plain
    ones, applied one after another from the master key. *)
Theorem derive_path_sequential :
  (forall path key,
      Forall (fun index => 0 <= index <= Go.MaxUint32) path ->
      deriveLoop path key = DerivePathSpec path key) /\
  (forall index, 0 <= index <= Go.MaxUint32 ->
      (hardened index = true <-> 2 ^ 31 <= index)) /\
  stacksPath = [44 + 2 ^ 31; 5757 + 2 ^ 31; 0 + 2 ^ 31; 0; 0] /\
  map hardened stacksPath = [true; true; true; false; false] /\
  map childNumber stacksPath = [44; 5757; 0; 0; 0] /\
  (forall seed,
      DerivePath seed stacksPath =
        (masterKey <- orFatal (bip32_NewMasterKey seed) ErrMasterKey ;;
         purpose <- orFatal (DeriveChild masterKey 44 true) ErrDeriveKey ;;
         coin <- orFatal (DeriveChild purpose 5757 true) ErrDeriveKey ;;
         account <- orFatal (DeriveChild coin 0 true) ErrDeriveKey ;;
         chain <- orFatal (DeriveChild account 0 false) ErrDeriveKey ;;
         key <- orFatal (DeriveChild chain 0 false) ErrDeriveKey ;;
         Ok key)).
Proof.
  split.
  { induction path as [| index rest IH]; intros key Hall; simpl; [reflexivity |].
    inversion Hall as [| ? ? Hindex Hrest]; subst.
    unfold DeriveChild. rewrite (index_of_childNumber index Hindex).
    destruct (bip32_NewChildKey key index); simpl; [apply IH; assumption | reflexivity]. }
  split; [exact hardened_iff |].
  split; [reflexivity |]. split; [reflexivity |]. split; [reflexivity |].
  intros seed. unfold DerivePath.
  destruct (bip32_NewMasterKey seed) as [masterKey |]; simpl; [| reflexivity].
  unfold DeriveChild, FirstHardenedChild.
  destruct (bip32_NewChildKey masterKey _) as [k1 |]; simpl; [| reflexivity].
  destruct (bip32_NewChildKey k1 _) as [k2 |]; simpl; [| reflexivity].
  destruct (bip32_NewChildKey k2 _) as [k3 |]; simpl; [| reflexivity].
  destruct (bip32_NewChildKey k3 _) as [k4 |]; simpl; [| reflexivity].
  destruct (bip32_NewChildKey k4 _) as [k5 |]; simpl; reflexivity.
Qed.

End StacksDerivation.

Lemma key_derivation_deterministic_witness :
  exists key,
    @Stacks.DerivePath Fixtures.wallet [x01] Stacks.stacksPath = Ok key /\
    Ok key = @Stacks.DerivePath Fixtures.wallet [x01] Stacks.stacksPath.
Proof.
  eexists. split; [vm_compute; reflexivity |].
  apply (@key_derivation_deterministic Fixtures.wallet [x01] Stacks.stacksPath).
  - exact (@runs_DerivePath Fixtures.wallet [x01] Stacks.stacksPath).
  - exact (@runs_DerivePath Fixtures.wallet [x01] Stacks.stacksPath).
Defined.

Lemma derive_path_sequential_witness :
  @Stacks.deriveLoop Fixtures.wallet Stacks.stacksPath [x01]
    = @Stacks.DerivePathSpec Fixtures.wallet Stacks.stacksPath [x01].
Proof.
  apply (proj1 (@derive_path_sequential Fixtures.wallet)).
  unfold Stacks.stacksPath, Go.MaxUint32. repeat constructor; lia.
Defined.

(** ** [encodeC32Address] *)

Section StacksAddress.

Import Stacks.

Lemma stringTo_cons2 (m : nat) (a b : ascii) (s : string) :
  Go.stringTo (S (S m)) (String a (String b s))
    = option_map (fun t => String a (String b t)) (Go.stringTo m s).
Proof.
  unfold Go.stringTo, Go.sliceTo. simpl.
  destruct (m <=? List.length (list_ascii_of_string s))%nat; reflexivity.
Qed.

(** The first [2 n] characters of the hexadecimal text of [data] are the
    text of its first [n] bytes. *)
Lemma stringTo_EncodeToString (n : nat) :
  forall data, (n <= List.length data)%nat ->
    Go.stringTo (2 * n) (Go.EncodeToString data)
      = Some (Go.EncodeToString (firstn n data)).
Proof.
  induction n as [| n IH]; intros data Hlen.
  - destruct data; reflexivity.
  - destruct data as [| v rest]; simpl in Hlen; [lia |].
    replace (2 * S n)%nat with (S (S (2 * n))) by lia.
    simpl Go.EncodeToString. rewrite stringTo_cons2, IH by lia. reflexivity.
Qed.

(** The address keeps the version and the first 15 bytes of the hash; what
    follows them does not reach it. *)
Lemma encodeC32Address_truncates (version : byte) (hash : list byte) :
  (15 <= List.length hash)%nat ->
  encodeC32Address version hash
    = Ok ((if Byte.eqb version x15 then "ST" else "SP")
          ++ Go.EncodeToString (version :: firstn 15 hash))%string.
Proof.
  intros Hlen. unfold encodeC32Address.
  change 32%nat with (2 * 16)%nat.
  rewrite stringTo_EncodeToString by (simpl; lia).
  reflexivity.
Qed.

(** No decoder inverts [encodeC32Address] on the 20-byte hashes. *)
Lemma encodeC32Address_no_decoder (Decode : string -> option (list byte * byte)) :
  ~ (forall version hash address,
       List.length hash = 20%nat ->
       encodeC32Address version hash = Ok address ->
       Decode address = Some (hash, version)).
Proof.
  intros Hround.
  pose proof (Hround x1a Fixtures.hashA _ eq_refl eq_refl) as HA.
  pose proof (Hround x1a Fixtures.hashB _ eq_refl eq_refl) as HB.
  simpl in HA, HB. rewrite HA in HB. discriminate.
Qed.

(** C8 -- The address encoding does not round-trip on the Stacks variant:
    [encodeC32Address] keeps 16 bytes of the 21 it is given, so the two
    20-byte hashes [hashA] and [hashB], which differ in their last byte,
    have one and the same mainnet address, and no decoder can return
    both. *)
Theorem encodeC32Address_collision :
  List.length Fixtures.hashA = 20%nat /\
  List.length Fixtures.hashB = 20%nat /\
  Fixtures.hashA <> Fixtures.hashB /\
  encodeC32Address x1a Fixtures.hashA = Ok "SP1a000000000000000000000000000000"%string /\
  encodeC32Address x1a Fixtures.hashB = Ok "SP1a000000000000000000000000000000"%string.
Proof.
  split; [reflexivity |]. split; [reflexivity |].
  split; [discriminate |]. split; reflexivity.
Qed.

End StacksAddress.

(** ** [deriveTronAddress] *)

Section TronAddress.

Import Tron.
Context `{TronLibs}.

Lemma sliceFrom_length {A : Type} (n : nat) (s : list A) :
  (n <= List.length s)%nat -> Go.sliceFrom n s = Some (skipn n s).
Proof.
  intros Hn. unfold Go.sliceFrom.
  apply Nat.leb_le in Hn. rewrite Hn. reflexivity.
Qed.

Lemma sliceTo_length {A : Type} (n : nat) (s : list A) :
  (n <= List.length s)%nat -> Go.sliceTo n s = Some (firstn n s).
Proof.
  intros Hn. unfold Go.sliceTo.
  apply Nat.leb_le in Hn. rewrite Hn. reflexivity.
Qed.

(** C7 -- The Tron address of a public key is the Base58 text of: the
    version byte 0x41, the last 20 bytes of the Keccak256 digest of the
    uncompressed key without its leading format byte, and the first 4 bytes
    of SHA256(SHA256(version and payload)).  [deriveTronAddress] builds
    that text without a slice out of range, and returns the address gotron
    reads back from it. *)
Theorem tron_address_derivation (publicKeyECDSA : PublicKey) :
  tronBase58 publicKeyECDSA
    = Ok (tronAddressSpec (crypto_FromECDSAPub publicKeyECDSA)) /\
  deriveTronAddress publicKeyECDSA
    = orFatal (address_Base58ToAddress
                 (tronAddressSpec (crypto_FromECDSAPub publicKeyECDSA)))
        ErrDeriveAddress /\
  List.length (keccakPayload (crypto_FromECDSAPub publicKeyECDSA)) = 20%nat.
Proof.
  assert (Hbase : tronBase58 publicKeyECDSA
                  = Ok (tronAddressSpec (crypto_FromECDSAPub publicKeyECDSA))).
  { unfold tronBase58, tronAddressSpec, Base58Check, keccakPayload, lastBytes.
    rewrite sliceFrom_length by (rewrite FromECDSAPub_length; lia). simpl bind.
    rewrite sliceFrom_length by (rewrite Keccak256_length; lia). simpl bind.
    rewrite sliceTo_length by (rewrite Sum256_length; lia). simpl bind.
    rewrite Keccak256_length.
    destruct (crypto_FromECDSAPub publicKeyECDSA); reflexivity. }
  split; [exact Hbase |].
  split; [unfold deriveTronAddress; rewrite Hbase; reflexivity |].
  unfold keccakPayload, lastBytes.
  rewrite length_skipn, Keccak256_length. reflexivity.
Qed.

End TronAddress.

Lemma tron_address_derivation_witness :
  exists address,
    @Tron.deriveTronAddress Fixtures.tron Fixtures.pubkey = Ok address /\
    @Tron.tronBase58 Fixtures.tron Fixtures.pubkey
      = Ok (@Tron.tronAddressSpec Fixtures.tron
              (@Tron.crypto_FromECDSAPub Fixtures.tron Fixtures.pubkey)).
Proof.
  eexists. split; [vm_compute; reflexivity |].
  exact (proj1 (@tron_address_derivation Fixtures.tron Fixtures.pubkey)).
Defined.

(* ================================================================== *)
(** * Part III: further properties of the three files                  *)
(* ================================================================== *)

(** ** Hexadecimal text *)

Lemma hex_byte (b : byte) :
  let n := Byte.to_N b in
  Go.fromHexChar (Go.hexDigit (N.shiftr n 4)) = Some (N.shiftr n 4) /\
  Go.fromHexChar (Go.hexDigit (N.land n 15)) = Some (N.land n 15) /\
  Go.byte_of_N (N.lor (N.shiftl (N.shiftr n 4) 4) (N.land n 15)) = b.
Proof. destruct b; vm_compute; auto. Qed.

(** Decoding the text of some bytes gives the bytes back. *)
Lemma DecodeString_EncodeToString (data : list byte) :
  Go.DecodeString (Go.EncodeToString data) = Some data.
Proof.
  induction data as [| b rest IH]; [reflexivity |].
  destruct (hex_byte b) as (Hhi & Hlo & Hb). cbv zeta in *.
  cbn [Go.EncodeToString Go.DecodeString]. cbv zeta.
  rewrite Hhi, Hlo, IH, Hb. reflexivity.
Qed.

Lemma EncodeToString_inj (a b : list byte) :
  Go.EncodeToString a = Go.EncodeToString b -> a = b.
Proof.
  intros Heq.
  pose proof (DecodeString_EncodeToString a) as Ha.
  rewrite Heq, DecodeString_EncodeToString in Ha. congruence.
Qed.

Lemma EncodeToString_length (data : list byte) :
  String.length (Go.EncodeToString data) = (2 * List.length data)%nat.
Proof.
  induction data as [| b rest IH]; simpl; [reflexivity | rewrite IH; lia].
Qed.

Lemma list_ascii_of_string_length (s : string) :
  List.length (list_ascii_of_string s) = String.length s.
Proof. induction s as [| c s IH]; simpl; congruence. Qed.

Lemma fromHexChar_isHexDigit (c : ascii) :
  Go.fromHexChar c <> None <-> isHexDigit c = true.
Proof.
  unfold Go.fromHexChar, isHexDigit. cbv zeta.
  destruct ((48 <=? N_of_ascii c) && (N_of_ascii c <=? 57))%N;
    destruct ((97 <=? N_of_ascii c) && (N_of_ascii c <=? 102))%N;
    destruct ((65 <=? N_of_ascii c) && (N_of_ascii c <=? 70))%N;
    simpl; split; intros; congruence.
Qed.

(** Induction on a text two characters at a time. *)
Lemma string_pair_ind (P : string -> Prop) :
  P EmptyString ->
  (forall c, P (String c EmptyString)) ->
  (forall a b s, P s -> P (String a (String b s))) ->
  forall s, P s.
Proof.
  intros Hnil Hone Hpair s.
  assert (Hboth : P s /\ forall c, P (String c s)).
  { induction s as [| c s [IH1 IH2]].
    - split; [exact Hnil | exact Hone].
    - split; [apply IH2 | intros a; apply Hpair; exact IH1]. }
  exact (proj1 Hboth).
Qed.

(** [hex.DecodeString] succeeds exactly on an even number of hexadecimal
    digits. *)
Lemma DecodeString_isHexText (s : string) :
  Go.DecodeString s <> None <-> isHexText s = true.
Proof.
  induction s as [| c | a b s IH] using string_pair_ind.
  - simpl. split; [reflexivity | discriminate].
  - simpl. split; [congruence | discriminate].
  - unfold isHexText in *. simpl Go.DecodeString.
    simpl String.length. simpl list_ascii_of_string. simpl forallb.
    change (Nat.even (S (S (String.length s)))) with (Nat.even (String.length s)).
    pose proof (fromHexChar_isHexDigit a) as Ha.
    pose proof (fromHexChar_isHexDigit b) as Hb.
    destruct (Go.fromHexChar a) as [x |]; destruct (isHexDigit a);
      try (exfalso; (apply Ha; congruence) || (destruct Ha as [Ha _]; discriminate Ha; congruence)).
    all: destruct (Go.fromHexChar b) as [y |]; destruct (isHexDigit b);
      destruct (Go.DecodeString s); destruct (Nat.even (String.length s));
      destruct (forallb isHexDigit (list_ascii_of_string s));
      simpl in *; intuition congruence.
Qed.

(** ** [SendLitecoinTransaction]: what selection looks at *)

Section LitecoinSelectionMore.

Import Litecoin.
Context `{BtcSuite}.

(** A loop that stopped on a covering total did not look past the inputs
    it added. *)
Lemma addInputs_stops (utxos : list ListUnspentResult) :
  forall amount tx total tx' total',
    addInputs utxos amount tx total = Ok (tx', total') ->
    Go.add64 amount fee <= total' ->
    total < Go.add64 amount fee \/ utxos <> [] ->
    exists k,
      (0 < k)%nat /\
      List.length (TxIns tx') = (List.length (TxIns tx) + k)%nat /\
      forall rest,
        addInputs (firstn k utxos ++ rest) amount tx total = Ok (tx', total').
Proof.
  induction utxos as [| u l IH]; intros amount tx total tx' total' Hrun Hcover Hstart.
  - simpl in Hrun. inversion Hrun; subst.
    destruct Hstart as [Hlow | Hne]; [lia | congruence].
  - simpl in Hrun.
    destruct (inputOf u) as [ti |] eqn:Hin; simpl in Hrun; [| discriminate].
    destruct (Go.add64 total (toAmount (Amount u)) >=? Go.add64 amount fee) eqn:Hcmp.
    + inversion Hrun; subst. exists 1%nat.
      split; [lia |]. split; [simpl; rewrite length_app; simpl; lia |].
      intros rest. simpl. rewrite Hin. simpl. rewrite Hcmp. reflexivity.
    + assert (Hlow : Go.add64 total (toAmount (Amount u)) < Go.add64 amount fee).
      { rewrite Z.geb_leb in Hcmp. apply Z.leb_gt in Hcmp. exact Hcmp. }
      destruct (IH _ _ _ _ _ Hrun Hcover (or_introl Hlow)) as (k & Hk & Hlen & Hrest).
      exists (S k).
      split; [lia |].
      split; [rewrite Hlen; simpl; rewrite length_app; simpl; lia |].
      intros rest. simpl. rewrite Hin. simpl. rewrite Hcmp. apply Hrest.
Qed.

(** X1 -- The unspent outputs after the stopping point are never looked
    at: a built transaction is built just the same when what follows the
    outputs it spends is replaced by anything else, be it nothing, other
    outputs, or outputs whose txid is not hexadecimal. *)
Theorem selection_ignores_the_rest (fromAddr toAddr : Address) (amount : Z)
    (utxos : list ListUnspentResult) (tx : MsgTx) :
  buildTransaction fromAddr toAddr amount utxos = Ok tx ->
  forall rest,
    buildTransaction fromAddr toAddr amount (selected tx utxos ++ rest) = Ok tx.
Proof.
  intros Hbuild rest.
  assert (Hins : exists k pk outs,
             List.length (TxIns tx) = k /\
             tx = {| Version := TxVersion; TxIns := TxIns tx;
                     TxOuts := NewTxOut amount pk :: outs; LockTime := 0 |}).
  { apply buildTransaction_inv in Hbuild.
    destruct Hbuild as (k & ins & pk & outs & _ & Hlen & _ & _ & _ & _ & Htx & _).
    exists k, pk, outs. subst tx. simpl. auto. }
  unfold buildTransaction in *.
  destruct (List.length utxos =? 0)%nat eqn:Hlen; [discriminate |].
  apply Nat.eqb_neq in Hlen.
  destruct (addInputs utxos amount (NewMsgTx TxVersion) 0) as [[tx1 total] | e] eqn:Hadd;
    simpl in Hbuild; [| discriminate].
  destruct (total <? Go.add64 amount fee) eqn:Hcmp; [discriminate |].
  apply Z.ltb_ge in Hcmp.
  assert (Hne : utxos <> []) by (intros ->; apply Hlen; reflexivity).
  destruct (addInputs_stops _ _ _ _ _ _ Hadd Hcmp (or_intror Hne)) as (k & Hk & Hlenk & Hrest).
  assert (Hsame : TxIns tx = TxIns tx1).
  { destruct (txscript_PayToAddrScript toAddr); simpl in Hbuild; [| discriminate].
    destruct (_ >? 0) in Hbuild.
    - destruct (txscript_PayToAddrScript fromAddr); simpl in Hbuild; [| discriminate].
      inversion Hbuild. reflexivity.
    - inversion Hbuild. reflexivity. }
  unfold selected. rewrite Hsame, Hlenk. simpl Nat.add.
  destruct (List.length (firstn k utxos ++ rest) =? 0)%nat eqn:Hlen'.
  { apply Nat.eqb_eq in Hlen'. rewrite length_app, length_firstn in Hlen'.
    destruct utxos; [congruence | simpl in Hlen'; lia]. }
  rewrite Hrest. simpl.
  apply Z.ltb_ge in Hcmp. rewrite Hcmp. exact Hbuild.
Qed.

(** The loop fails exactly when it reaches an output whose txid is not
    hexadecimal before the running total covers the amount and the fee. *)
Lemma addInputs_fatal_iff (utxos : list ListUnspentResult) :
  forall amount tx total,
    addInputs utxos amount tx total = Fatal ErrInvalidTxid <->
    exists j u,
      nth_error utxos j = Some u /\
      inputOf u = None /\
      (forall i u', (i < j)%nat -> nth_error utxos i = Some u' -> inputOf u' <> None) /\
      (forall k, (0 < k <= j)%nat ->
         runningTotal total (firstn k utxos) < Go.add64 amount fee).
Proof.
  induction utxos as [| u l IH]; intros amount tx total; simpl.
  - split; [discriminate |].
    intros (j & u & Hj & _). destruct j; discriminate.
  - destruct (inputOf u) as [ti |] eqn:Hin; simpl.
    + destruct (Go.add64 total (toAmount (Amount u)) >=? Go.add64 amount fee) eqn:Hcmp.
      * split; [discriminate |].
        intros (j & u' & Hj & Hbad & Hvalid & Hlow).
        destruct j as [| j]; [simpl in Hj; congruence |].
        specialize (Hlow 1%nat ltac:(lia)). unfold runningTotal in Hlow. simpl in Hlow.
        apply Z.geb_le in Hcmp. lia.
      * rewrite IH. split.
        -- intros (j & u' & Hj & Hbad & Hvalid & Hlow).
           exists (S j), u'. split; [exact Hj |]. split; [exact Hbad |]. split.
           ++ intros [| i] v Hi Hv; simpl in Hv.
              ** inversion Hv; subst. congruence.
              ** apply (Hvalid i); [lia | exact Hv].
           ++ intros [| [| k]] Hk; [lia | |].
              ** unfold runningTotal. simpl.
                 rewrite Z.geb_leb in Hcmp. apply Z.leb_gt in Hcmp. exact Hcmp.
              ** apply (Hlow (S k)). lia.
        -- intros (j & u' & Hj & Hbad & Hvalid & Hlow).
           destruct j as [| j]; [simpl in Hj; congruence |].
           exists j, u'. split; [exact Hj |]. split; [exact Hbad |]. split.
           ++ intros i v Hi Hv. apply (Hvalid (S i)); [lia | exact Hv].
           ++ intros k Hk. apply (Hlow (S k)). lia.
    + split; [| reflexivity]. intros _.
      exists 0%nat, u. split; [reflexivity |]. split; [exact Hin |].
      split; intros; lia.
Qed.

(** X2 -- The build fails with "Invalid txid" exactly when some unspent
    output whose txid is not hexadecimal is reached before the running
    total covers the amount and the fee: every output before it has a
    hexadecimal txid and no non-empty prefix up to it reaches
    [amount + fee]. *)
Theorem invalid_txid_exactly (fromAddr toAddr : Address) (amount : Z)
    (utxos : list ListUnspentResult) :
  buildTransaction fromAddr toAddr amount utxos = Fatal ErrInvalidTxid <->
  exists j u,
    nth_error utxos j = Some u /\
    inputOf u = None /\
    (forall i u', (i < j)%nat -> nth_error utxos i = Some u' -> inputOf u' <> None) /\
    (forall k, (0 < k <= j)%nat ->
       runningTotal 0 (firstn k utxos) < Go.add64 amount fee).
Proof.
  rewrite <- (addInputs_fatal_iff utxos amount (NewMsgTx TxVersion) 0).
  unfold buildTransaction.
  destruct (List.length utxos =? 0)%nat eqn:Hlen.
  { apply Nat.eqb_eq in Hlen. destruct utxos; [| discriminate].
    simpl. split; discriminate. }
  destruct (addInputs utxos amount (NewMsgTx TxVersion) 0) as [[tx1 total] | e] eqn:Hadd;
    simpl.
  - split; [| discriminate].
    destruct (total <? Go.add64 amount fee); [discriminate |].
    destruct (txscript_PayToAddrScript toAddr); simpl; [| discriminate].
    destruct (_ >? 0); [| discriminate].
    destruct (txscript_PayToAddrScript fromAddr); simpl; discriminate.
  - split; intros Hf; inversion Hf; reflexivity.
Qed.

End LitecoinSelectionMore.

Lemma selection_ignores_the_rest_witness :
  exists tx,
    @Litecoin.buildTransaction Fixtures.btcd "Lfrom"%string "Lto"%string 6000
      [Fixtures.u5; Fixtures.u3; Fixtures.u2] = Ok tx /\
    @Litecoin.buildTransaction Fixtures.btcd "Lfrom"%string "Lto"%string 6000
      ([Fixtures.u5; Fixtures.u3] ++ [Fixtures.uBadTxid]) = Ok tx.
Proof.
  eexists. split; [vm_compute; reflexivity |].
  exact (@selection_ignores_the_rest Fixtures.btcd "Lfrom"%string "Lto"%string 6000
           [Fixtures.u5; Fixtures.u3; Fixtures.u2] _ eq_refl [Fixtures.uBadTxid]).
Defined.

(** ** [SendLitecoinTransaction]: the inputs it builds *)

Section LitecoinInputShape.

Import Litecoin.



End LitecoinInputShape.


(** ** [SendLitecoinTransaction]: what signing changes *)

Section LitecoinSigningMore.

Import Litecoin.
Context `{BtcSuite}.

Lemma setNth_length {A : Type} (f : A -> A) (l : list A) :
  forall i, List.length (setNth i f l) = List.length l.
Proof.
  induction l as [| x rest IH]; intros [| i]; simpl; rewrite ?IH; reflexivity.
Qed.

(** A signing loop that succeeds leaves everything but the signature
    scripts as it was. *)
Lemma signLoop_preserves (utxos : list ListUnspentResult) (wif : WIF) :
  forall indices tx log tx' log',
    signLoop indices utxos wif tx log = (Ok tx', log') ->
    Version tx' = Version tx /\
    LockTime tx' = LockTime tx /\
    TxOuts tx' = TxOuts tx /\
    List.length (TxIns tx') = List.length (TxIns tx) /\
    map PreviousOutPoint (TxIns tx') = map PreviousOutPoint (TxIns tx) /\
    map Witness (TxIns tx') = map Witness (TxIns tx) /\
    map Sequence (TxIns tx') = map Sequence (TxIns tx).
Proof.
  induction indices as [| i rest IH]; intros tx log tx' log' Hrun; simpl in Hrun.
  - inversion Hrun; subst. repeat split; reflexivity.
  - destruct (nth_error utxos i) as [u |]; [| discriminate].
    destruct (Go.DecodeString (ScriptPubKey u)) as [script |]; [| discriminate].
    destruct (txscript_SignatureScript tx i script wif) as [sigScript |];
      [| discriminate].
    apply IH in Hrun.
    destruct Hrun as (Hv & Hl & Ho & Hn & Hp & Hw & Hs).
    simpl in *. rewrite setNth_length in Hn.
    rewrite setNth_map in Hp by reflexivity.
    rewrite setNth_map in Hw by reflexivity.
    rewrite setNth_map in Hs by reflexivity.
    repeat split; assumption.
Qed.


(** X4 -- Signing changes the signature scripts and nothing else: a
    transaction that was signed has the version, the lock time and the
    outputs of the unsigned one, as many inputs, and in each input the
    same outpoint, witness and sequence number. *)
Theorem signing_changes_only_signature_scripts (tx signed : MsgTx)
    (utxos : list ListUnspentResult) (wif : WIF) :
  fst (signTransaction tx utxos wif) = Ok signed ->
  Version signed = Version tx /\
  LockTime signed = LockTime tx /\
  TxOuts signed = TxOuts tx /\
  List.length (TxIns signed) = List.length (TxIns tx) /\
  map PreviousOutPoint (TxIns signed) = map PreviousOutPoint (TxIns tx) /\
  map Witness (TxIns signed) = map Witness (TxIns tx) /\
  map Sequence (TxIns signed) = map Sequence (TxIns tx).
Proof.
  unfold signTransaction. intros Hsign.
  destruct (signLoop _ utxos wif tx []) as [outcome log] eqn:Hrun.
  simpl in Hsign. subst outcome.
  eapply signLoop_preserves. eassumption.
Qed.


End LitecoinSigningMore.

Lemma signing_changes_only_signature_scripts_witness :
  exists tx signed,
    @Litecoin.buildTransaction Fixtures.btcd "Lfrom"%string "Lto"%string 6000
      [Fixtures.u5; Fixtures.u3; Fixtures.u2] = Ok tx /\
    fst (@Litecoin.signTransaction Fixtures.btcd tx
           [Fixtures.u5; Fixtures.u3; Fixtures.u2] tt) = Ok signed /\
    map Litecoin.SignatureScript (Litecoin.TxIns signed)
      <> map Litecoin.SignatureScript (Litecoin.TxIns tx) /\
    Litecoin.TxOuts signed = Litecoin.TxOuts tx.
Proof.
  eexists. eexists.
  split; [vm_compute; reflexivity |].
  split; [vm_compute; reflexivity |].
  split; [discriminate |].
  eapply (@signing_changes_only_signature_scripts Fixtures.btcd _ _
            [Fixtures.u5; Fixtures.u3; Fixtures.u2] tt).
  vm_compute. reflexivity.
Defined.


(** ** [LoadLitecoinAccount] and the sender of a transfer *)

Section LitecoinAccountsMore.

Import Litecoin LitecoinAccounts.
Context `{BtcAccounts}.

(** X6 -- The account [LoadLitecoinAccount] returns is the one
    [SendLitecoinTransaction] spends from.  For the key and the address
    text it returns, a transfer with that key never fails with "Failed to
    create from address"; whenever it reaches signing, the unspent outputs
    were listed for the address of that text, and a second output, when
    there is one, pays the script of that same address. *)
Theorem loaded_account_is_the_sender (wifStr : string) (net : Params)
    (wif : WIF) (addressText : string) :
  LoadLitecoinAccount wifStr net = Done (wif, addressText) ->
  exists fromAddr,
    EncodeAddress fromAddr = addressText /\
    (forall client toAddress amountBTC,
        SendLitecoinTransaction client wif toAddress amountBTC net
          <> Fatal ErrFromAddress) /\
    (forall client toAddress amountBTC utxos tx,
        reachesSigning client wif toAddress amountBTC net utxos tx ->
        rpcclient_ListUnspentMinMaxAddresses client 1 9999999 [fromAddr]
          = Some utxos /\
        forall changeOut,
          nth_error (TxOuts tx) 1 = Some changeOut ->
          txscript_PayToAddrScript fromAddr = Some (PkScript changeOut)).
Proof.
  unfold LoadLitecoinAccount. intros Hload.
  destruct (btcutil_DecodeWIF wifStr) as [w |]; simpl in Hload; [| discriminate].
  destruct (btcutil_NewAddressPubKeyHash w net) as [addr |] eqn:Haddr;
    simpl in Hload; [| discriminate].
  inversion Hload; subst. clear Hload.
  exists addr. split; [reflexivity |]. split.
  - intros client toAddress amountBTC. unfold SendLitecoinTransaction.
    rewrite Haddr. simpl.
    destruct (btcutil_DecodeAddress toAddress net); simpl; [| discriminate].
    destruct (rpcclient_ListUnspentMinMaxAddresses client 1 9999999 [addr]);
      simpl; [| discriminate].
    destruct (buildTransaction addr a (toAmount amountBTC) l) as [tx | e] eqn:Hbuild;
      simpl.
    + destruct (fst (signTransaction tx l wif)) as [tx' | e] eqn:Hsign; simpl.
      * destruct (rpcclient_SendRawTransaction client tx' false); simpl; discriminate.
      * unfold signTransaction in Hsign.
        destruct (signLoop _ l wif tx []) as [outcome log] eqn:Hrun.
        simpl in Hsign. subst outcome.
        intros Hf. inversion Hf; subst.
        clear - Hrun. revert Hrun.
        generalize (seq 0 (List.length (TxIns tx))) as indices.
        generalize (@nil SignRequest) as log0. revert tx.
        intros tx log0 indices. revert tx log0.
        induction indices as [| i rest IH]; intros tx log0 Hrun; simpl in Hrun;
          [discriminate |].
        destruct (nth_error l i); [| discriminate].
        destruct (Go.DecodeString (ScriptPubKey l0)); [| discriminate].
        destruct (txscript_SignatureScript tx i l1 wif); [| discriminate].
        eapply IH; eassumption.
    + unfold buildTransaction in Hbuild.
      destruct (List.length l =? 0)%nat; [inversion Hbuild; discriminate |].
      destruct (addInputs l (toAmount amountBTC) (NewMsgTx TxVersion) 0)
        as [[tx1 total] | e'] eqn:Hadd; simpl in Hbuild.
      * destruct (total <? _); [inversion Hbuild; discriminate |].
        destruct (txscript_PayToAddrScript a); simpl in Hbuild;
          [| inversion Hbuild; discriminate].
        destruct (_ >? 0); [| discriminate].
        destruct (txscript_PayToAddrScript addr); simpl in Hbuild;
          [discriminate | inversion Hbuild; discriminate].
      * apply addInputs_fatal in Hadd. inversion Hbuild; subst. discriminate.
  - intros client toAddress amountBTC utxos tx
      (fromAddr & toAddr & Hfrom & _ & Hlist & Hbuild).
    assert (fromAddr = addr) by congruence. subst fromAddr.
    split; [exact Hlist |].
    intros changeOut Hout.
    apply buildTransaction_inv in Hbuild.
    destruct Hbuild as (k & ins & pk & outs & _ & _ & _ & _ & _ & _ & Htx & Hchange).
    subst tx. simpl in Hout. cbv zeta in Hchange.
    destruct Hchange as [(_ & cs & Hcs & ->) | (_ & ->)]; simpl in Hout.
    + inversion Hout; subst. exact Hcs.
    + discriminate.
Qed.

End LitecoinAccountsMore.

Lemma loaded_account_is_the_sender_witness :
  exists fromAddr,
    @LitecoinAccounts.EncodeAddress _ AccountFixtures.btcAccounts fromAddr
      = "LfromAddress"%string.
Proof.
  destruct (@loaded_account_is_the_sender Fixtures.btcd AccountFixtures.btcAccounts
              "T4wif"%string tt tt "LfromAddress"%string eq_refl)
    as (fromAddr & Htext & _).
  exists fromAddr. exact Htext.
Defined.

(** ** [encodeC32Address], [createStacksAccount] and [loadStacksAccount] *)

Section StacksAccountsMore.

Import Stacks StacksLoad.
Context `{Wallet}.

Lemma string_length_append (a b : string) :
  String.length (a ++ b) = (String.length a + String.length b)%nat.
Proof. induction a as [| c a IH]; simpl; congruence. Qed.

Lemma stringTo_short (n : nat) (s : string) :
  (String.length s < n)%nat -> Go.stringTo n s = None.
Proof.
  intros Hlen. unfold Go.stringTo, Go.sliceTo.
  rewrite list_ascii_of_string_length.
  apply Nat.leb_gt in Hlen. rewrite Hlen. reflexivity.
Qed.

Lemma encodeC32Address_long (version : byte) (hash : list byte) :
  (15 <= List.length hash)%nat ->
  exists address,
    encodeC32Address version hash = Ok address /\
    String.length address = 34%nat /\
    address = ((if Byte.eqb version x15 then "ST" else "SP")
               ++ Go.EncodeToString (version :: firstn 15 hash))%string.
Proof.
  intros Hlong.
  eexists. split; [apply encodeC32Address_truncates; exact Hlong |].
  split; [| reflexivity].
  assert (Hhex : String.length (Go.EncodeToString (version :: firstn 15 hash)) = 32%nat).
  { rewrite EncodeToString_length. cbn [List.length]. rewrite length_firstn. lia. }
  destruct (Byte.eqb version x15); rewrite string_length_append, Hhex;
    reflexivity.
Qed.

Lemma hash160_length (data : list byte) :
  List.length (hash160 data) = 20%nat.
Proof. unfold hash160. apply ripemd160_Size. Qed.

(** X7 -- [encodeC32Address] panics (slice bounds out of range) exactly on
    a hash of fewer than 15 bytes; on any longer hash it returns 34
    characters: "ST" for version 21 and "SP" for every other version, then
    the lower-case hexadecimal text of the version byte and of the first 15
    bytes of the hash. *)
Theorem encodeC32Address_outcome (version : byte) (hash : list byte) :
  ((List.length hash < 15)%nat /\
   encodeC32Address version hash = Fatal Panic) \/
  ((15 <= List.length hash)%nat /\
   exists address,
     encodeC32Address version hash = Ok address /\
     String.length address = 34%nat /\
     address = ((if Byte.eqb version x15 then "ST" else "SP")
                ++ Go.EncodeToString (version :: firstn 15 hash))%string).
Proof.
  destruct (Nat.lt_ge_cases (List.length hash) 15) as [Hshort | Hlong].
  - left. split; [exact Hshort |].
    unfold encodeC32Address. rewrite stringTo_short; [reflexivity |].
    rewrite EncodeToString_length. simpl. lia.
  - right. split; [exact Hlong |].
    apply encodeC32Address_long. exact Hlong.
Qed.

(** X8 -- Two addresses are equal exactly when the versions are equal and
    the hashes agree on their first 15 bytes: the version and those bytes
    can be read back from an address, the rest of the hash cannot. *)
Theorem encodeC32Address_equal_iff (version1 version2 : byte)
    (hash1 hash2 : list byte) :
  (15 <= List.length hash1)%nat ->
  (15 <= List.length hash2)%nat ->
  encodeC32Address version1 hash1 = encodeC32Address version2 hash2 <->
  version1 = version2 /\ firstn 15 hash1 = firstn 15 hash2.
Proof.
  intros H1 H2.
  rewrite (encodeC32Address_truncates version1 hash1 H1).
  rewrite (encodeC32Address_truncates version2 hash2 H2).
  split.
  - remember (Go.EncodeToString (version1 :: firstn 15 hash1)) as text1 eqn:E1.
    remember (Go.EncodeToString (version2 :: firstn 15 hash2)) as text2 eqn:E2.
    intros Heq. injection Heq as Htext.
    assert (Hhex : text1 = text2).
    { destruct (Byte.eqb version1 x15); destruct (Byte.eqb version2 x15);
        cbn [append] in Htext; congruence. }
    subst text1 text2. apply EncodeToString_inj in Hhex.
    injection Hhex as Hv Hh. auto.
  - intros [-> ->]. reflexivity.
Qed.

(** X9 -- The mainnet and the testnet address of a key are never out of
    reach of the encoder and differ in their first four characters only:
    "SP1a" on mainnet and "ST15" on testnet, followed by the same 30
    characters, the hexadecimal text of the first 15 bytes of the hash of
    the public key. *)
Theorem addresses_of_the_two_networks (key : Key) :
  exists body,
    String.length body = 30%nat /\
    body = Go.EncodeToString
             (firstn 15 (hash160 (btcec_SerializeCompressed (key_Key key)))) /\
    addressOf key true = Ok ("SP1a" ++ body)%string /\
    addressOf key false = Ok ("ST15" ++ body)%string.
Proof.
  pose proof (ripemd160_Size (sha256_Sum256 (btcec_SerializeCompressed (key_Key key))))
    as Hsize.
  eexists. split; [| split; [reflexivity |]].
  - rewrite EncodeToString_length, length_firstn. unfold hash160. rewrite Hsize.
    reflexivity.
  - unfold addressOf. simpl negb. cbv iota.
    split; rewrite encodeC32Address_truncates by (unfold hash160; rewrite Hsize; lia);
      reflexivity.
Qed.

Lemma deriveLoop_fatal (path : list Z) :
  forall key f, deriveLoop path key = Fatal f -> f = ErrDeriveKey.
Proof.
  induction path as [| index rest IH]; intros key f Hrun; simpl in Hrun.
  - discriminate.
  - destruct (bip32_NewChildKey key index) as [child |]; simpl in Hrun;
      [eauto | congruence].
Qed.

Lemma addressOf_Ok (key : Key) (isMainnet : bool) :
  exists address,
    addressOf key isMainnet = Ok address /\ String.length address = 34%nat.
Proof.
  unfold addressOf.
  destruct (encodeC32Address_long (if negb isMainnet then x15 else x1a)
              (hash160 (btcec_SerializeCompressed (key_Key key))))
    as (address & Haddr & Hlen & _).
  { rewrite hash160_length. lia. }
  exists address. split; [exact Haddr | exact Hlen].
Qed.

(** X10 -- [createStacksAccount] never panics.  It ends with one of four
    failures (entropy, mnemonic, master key, child key), and with "Failed
    to generate entropy" exactly when no entropy was drawn; an account it
    returns carries the mnemonic of the entropy, an address of 34
    characters and a private key that is hexadecimal text. *)
Theorem createStacksAccount_outcome (entropy : option (list byte)) (isMainnet : bool) :
  (createStacksAccount entropy isMainnet = Fatal ErrEntropy <-> entropy = None) /\
  (forall f, createStacksAccount entropy isMainnet = Fatal f ->
     f = ErrEntropy \/ f = ErrMnemonic \/ f = ErrMasterKey \/ f = ErrDeriveKey) /\
  (forall account, createStacksAccount entropy isMainnet = Ok account ->
     String.length (Address account) = 34%nat /\
     isHexText (PrivateKey account) = true /\
     exists drawn, entropy = Some drawn /\
       bip39_NewMnemonic drawn = Some (Mnemonic account)).
Proof.
  unfold createStacksAccount.
  destruct entropy as [drawn |]; cbn [bind orFatal].
  2:{ split; [tauto |]. split; [| discriminate].
      intros f Hf. inversion Hf. auto. }
  destruct (bip39_NewMnemonic drawn) as [mnemonic |] eqn:Hmnemonic;
    cbn [bind orFatal].
  2:{ split; [split; discriminate |]. split; [| discriminate].
      intros f Hf. inversion Hf. auto. }
  unfold DerivePath.
  destruct (bip32_NewMasterKey (bip39_NewSeed mnemonic "")) as [masterKey |];
    cbn [bind orFatal].
  2:{ split; [split; discriminate |]. split; [| discriminate].
      intros f Hf. inversion Hf. auto. }
  destruct (deriveLoop stacksPath masterKey) as [key | e] eqn:Hloop;
    cbn [bind orFatal].
  2:{ apply deriveLoop_fatal in Hloop. subst e.
      split; [split; discriminate |]. split; [| discriminate].
      intros f Hf. inversion Hf. auto. }
  destruct (addressOf_Ok key isMainnet) as (address & Haddr & Hlen).
  rewrite Haddr. cbn [bind orFatal].
  split; [split; discriminate |]. split; [discriminate |].
  intros account Hacc. inversion Hacc; subst account. simpl.
  split; [exact Hlen |]. split.
  - apply DecodeString_isHexText. rewrite DecodeString_EncodeToString. discriminate.
  - exists drawn. split; [reflexivity | exact Hmnemonic].
Qed.

(** X11 -- An account that was created loads back: [loadStacksAccount] on
    the private key text of an account [createStacksAccount] returned, for
    the same network, yields that private key text and that address (and no
    mnemonic). *)
Theorem created_account_loads_back (entropy : option (list byte))
    (isMainnet : bool) (account : StacksAccount) :
  createStacksAccount entropy isMainnet = Ok account ->
  loadStacksAccount (PrivateKey account) isMainnet
    = Done {| PrivateKey := PrivateKey account;
              Address := Address account;
              Mnemonic := EmptyString |}.
Proof.
  unfold createStacksAccount, loadStacksAccount. intros Hcreate.
  destruct entropy as [drawn |]; simpl in Hcreate; [| discriminate].
  destruct (bip39_NewMnemonic drawn) as [mnemonic |]; simpl in Hcreate;
    [| discriminate].
  destruct (DerivePath (bip39_NewSeed mnemonic "") stacksPath) as [key |];
    simpl in Hcreate; [| discriminate].
  destruct (addressOf key isMainnet) as [address |] eqn:Haddr;
    simpl in Hcreate; [| discriminate].
  inversion Hcreate; subst account. simpl.
  rewrite DecodeString_EncodeToString. simpl.
  unfold addressOf in Haddr. rewrite Haddr. reflexivity.
Qed.

(** X12 -- [loadStacksAccount] fails, with "Invalid private key", exactly
    on text that is not an even number of hexadecimal digits; on any other
    text, whatever its length, it returns an account with that very text as
    private key, an address of 34 characters and no mnemonic. *)
Theorem loadStacksAccount_outcome (privateKeyHex : string) (isMainnet : bool) :
  (loadStacksAccount privateKeyHex isMainnet = Failed ErrInvalidPrivateKey
   <-> isHexText privateKeyHex = false) /\
  (isHexText privateKeyHex = true
   <-> exists address,
         String.length address = 34%nat /\
         loadStacksAccount privateKeyHex isMainnet
           = Done {| PrivateKey := privateKeyHex;
                     Address := address;
                     Mnemonic := EmptyString |}).
Proof.
  pose proof (DecodeString_isHexText privateKeyHex) as Hhex.
  unfold loadStacksAccount.
  destruct (Go.DecodeString privateKeyHex) as [privateKeyBytes |] eqn:Hdec; simpl.
  - assert (Htrue : isHexText privateKeyHex = true)
      by (apply Hhex; discriminate).
    destruct (encodeC32Address_long (if negb isMainnet then x15 else x1a)
                (hash160 (btcec_SerializeCompressed privateKeyBytes)))
      as (address & Haddr & Hlen & _).
    { rewrite hash160_length. lia. }
    rewrite Haddr. simpl. rewrite Htrue.
    split; [split; discriminate |].
    split; [| reflexivity].
    intros _. exists address. split; [exact Hlen | reflexivity].
  - assert (Hfalse : isHexText privateKeyHex = false).
    { destruct (isHexText privateKeyHex); [| reflexivity].
      exfalso. apply (proj2 Hhex); reflexivity. }
    rewrite Hfalse. split; [tauto |].
    split; [discriminate |]. intros (address & _ & Hdone). discriminate.
Qed.

End StacksAccountsMore.

Lemma encodeC32Address_equal_iff_witness :
  Stacks.encodeC32Address x1a Fixtures.hashA
    = Stacks.encodeC32Address x1a Fixtures.hashB.
Proof.
  apply (encodeC32Address_equal_iff x1a x1a Fixtures.hashA Fixtures.hashB).
  - simpl. lia.
  - simpl. lia.
  - split; reflexivity.
Defined.

Lemma createStacksAccount_outcome_witness :
  exists account,
    @Stacks.createStacksAccount Fixtures.wallet (Some [x01; x02]) false = Ok account /\
    String.length (Stacks.Address account) = 34%nat.
Proof.
  eexists. split; [vm_compute; reflexivity |].
  apply (proj2 (proj2 (@createStacksAccount_outcome Fixtures.wallet
                         (Some [x01; x02]) false))).
  vm_compute. reflexivity.
Defined.

Lemma created_account_loads_back_witness :
  exists account,
    @Stacks.createStacksAccount Fixtures.wallet (Some [x01; x02]) true = Ok account /\
    @StacksLoad.loadStacksAccount Fixtures.wallet (Stacks.PrivateKey account) true
      = Done {| Stacks.PrivateKey := Stacks.PrivateKey account;
                Stacks.Address := Stacks.Address account;
                Stacks.Mnemonic := EmptyString |}.
Proof.
  eexists. split; [vm_compute; reflexivity |].
  apply (@created_account_loads_back Fixtures.wallet (Some [x01; x02]) true).
  vm_compute. reflexivity.
Defined.

(** ** tron: [CreateAccount], [LoadAccount] and the sender of a transfer *)

Section TronAccountsMore.

Import Tron TronAccounts.
Context `{TronKeys}.

(** The address code that [CreateAccount] and [LoadAccount] repeat is the
    one of [deriveTronAddress], up to the message of its last failure. *)
Lemma tronBase58_Ok (publicKeyECDSA : PublicKey) :
  exists base58Addr,
    tronBase58 publicKeyECDSA = Ok base58Addr /\
    Go.sliceFrom 1 (crypto_FromECDSAPub publicKeyECDSA)
      = Some (skipn 1 (crypto_FromECDSAPub publicKeyECDSA)) /\
    Go.sliceFrom 12 (crypto_Keccak256 (skipn 1 (crypto_FromECDSAPub publicKeyECDSA)))
      = Some (skipn 12 (crypto_Keccak256 (skipn 1 (crypto_FromECDSAPub publicKeyECDSA)))) /\
    (forall data, Go.sliceTo 4 (sha256_Sum256 data) = Some (firstn 4 (sha256_Sum256 data))) /\
    base58Addr =
      base58_Encode
        (([x41] ++ skipn 12 (crypto_Keccak256 (skipn 1 (crypto_FromECDSAPub publicKeyECDSA))))
         ++ firstn 4 (sha256_Sum256 (sha256_Sum256
              ([x41] ++ skipn 12 (crypto_Keccak256
                 (skipn 1 (crypto_FromECDSAPub publicKeyECDSA))))))).
Proof.
  assert (H1 : Go.sliceFrom 1 (crypto_FromECDSAPub publicKeyECDSA)
               = Some (skipn 1 (crypto_FromECDSAPub publicKeyECDSA))).
  { apply sliceFrom_length. rewrite FromECDSAPub_length. lia. }
  assert (H12 : forall data, Go.sliceFrom 12 (crypto_Keccak256 data)
                             = Some (skipn 12 (crypto_Keccak256 data))).
  { intros data. apply sliceFrom_length. rewrite Keccak256_length. lia. }
  assert (H4 : forall data, Go.sliceTo 4 (sha256_Sum256 data)
                            = Some (firstn 4 (sha256_Sum256 data))).
  { intros data. apply sliceTo_length. rewrite Sum256_length. lia. }
  eexists. split; [| split; [exact H1 | split; [apply H12 | split; [exact H4 | reflexivity]]]].
  unfold tronBase58. rewrite H1. cbn [bind orFatal].
  rewrite H12. cbn [bind orFatal]. rewrite H4. cbn [bind orFatal]. reflexivity.
Qed.

(** X13 -- The address [LoadAccount] returns for a key is the sender
    address [SendTransaction] derives from it: [LoadAccount] succeeds with
    a key and an address exactly when the text is read as that key and
    [deriveTronAddress] of its public key is that address.  It never
    panics: its only failures are "Invalid private key", "Cannot assert
    type" and "Failed to create address". *)
Theorem LoadAccount_is_the_sender (privateKeyHex : string) :
  (forall privateKey addr,
      LoadAccount privateKeyHex = Done (privateKey, addr) <->
      crypto_HexToECDSA privateKeyHex = Some privateKey /\
      senderOf privateKey = Done addr) /\
  (forall f, LoadAccount privateKeyHex = Failed f ->
      f = ErrInvalidPrivateKey \/ f = ErrCannotAssert \/ f = ErrCreateAddress).
Proof.
  assert (Hsender : forall key pub, Public key = Some pub ->
            senderOf key = earlier (deriveTronAddress pub)).
  { intros key pub Hpub. unfold senderOf. rewrite Hpub. reflexivity. }
  unfold LoadAccount.
  destruct (crypto_HexToECDSA privateKeyHex) as [key |]; cbn [andThen orFailed].
  2:{ split.
      - intros privateKey addr. split; [discriminate | intros [Hk _]; discriminate].
      - intros f Hf. inversion Hf. auto. }
  destruct (Public key) as [pub |] eqn:Hpub; cbn [andThen orFailed].
  2:{ split.
      - intros privateKey addr. split; [discriminate |].
        intros [Hk Hs]. injection Hk as <-.
        unfold senderOf in Hs. rewrite Hpub in Hs. discriminate.
      - intros f Hf. inversion Hf. auto. }
  destruct (tronBase58_Ok pub) as (text & Htext & H1 & H12 & H4 & Heq).
  rewrite H1. cbn [andThen orFailed].
  rewrite H12. cbn [andThen orFailed]. rewrite H4. cbn [andThen orFailed].
  rewrite <- Heq.
  assert (Hderive : deriveTronAddress pub
                    = orFatal (address_Base58ToAddress text) ErrDeriveAddress).
  { unfold deriveTronAddress. rewrite Htext. reflexivity. }
  destruct (address_Base58ToAddress text) as [a |]; cbn [andThen orFailed].
  - split; [| discriminate].
    intros privateKey addr. split.
    + intros Hd. injection Hd as <- <-. split; [reflexivity |].
      rewrite (Hsender _ _ Hpub), Hderive. reflexivity.
    + intros [Hk Hs]. injection Hk as <-.
      rewrite (Hsender _ _ Hpub), Hderive in Hs. cbn [orFatal earlier] in Hs.
      injection Hs as <-. reflexivity.
  - split.
    + intros privateKey addr. split; [discriminate |].
      intros [Hk Hs]. injection Hk as <-.
      rewrite (Hsender _ _ Hpub), Hderive in Hs. discriminate.
    + intros f Hf. inversion Hf. auto.
Qed.

(** X14 -- An account that was created loads back: when [CreateAccount]
    returns a key text and an address for a generated key, and go-ethereum
    reads that text as the same key, [LoadAccount] on the text returns the
    key and the same address. *)
Theorem created_tron_account_loads_back (privateKey : PrivateKey)
    (privateKeyHex : string) (addr : Address) :
  CreateAccount (Some privateKey) = Done (privateKeyHex, addr) ->
  crypto_HexToECDSA privateKeyHex = Some privateKey ->
  privateKeyHex = Go.EncodeToString (crypto_FromECDSA privateKey) /\
  LoadAccount privateKeyHex = Done (privateKey, addr).
Proof.
  unfold CreateAccount, LoadAccount. cbn [andThen orFailed].
  intros Hcreate Hread.
  destruct (Public privateKey) as [pub |] eqn:Hpub; cbn [andThen orFailed] in Hcreate;
    [| discriminate].
  destruct (tronBase58_Ok pub) as (text & _ & H1 & H12 & H4 & Heq).
  rewrite H1 in Hcreate. cbn [andThen orFailed] in Hcreate.
  rewrite H12 in Hcreate. cbn [andThen orFailed] in Hcreate.
  rewrite H4 in Hcreate. cbn [andThen orFailed] in Hcreate.
  rewrite <- Heq in Hcreate.
  destruct (address_Base58ToAddress text) as [a |] eqn:Ha;
    cbn [andThen orFailed] in Hcreate; [| discriminate].
  injection Hcreate as Hhex Haddr. subst privateKeyHex addr.
  split; [reflexivity |].
  rewrite Hread. cbn [andThen orFailed]. rewrite Hpub. cbn [andThen orFailed].
  rewrite H1. cbn [andThen orFailed]. rewrite H12. cbn [andThen orFailed].
  rewrite H4. cbn [andThen orFailed]. rewrite <- Heq, Ha. reflexivity.
Qed.

End TronAccountsMore.

Lemma created_tron_account_loads_back_witness :
  exists text addr,
    @TronAccounts.CreateAccount _ AccountFixtures.tronKeys (Some Fixtures.pubkey)
      = Done (text, addr) /\
    @TronAccounts.LoadAccount _ AccountFixtures.tronKeys text
      = Done (Fixtures.pubkey, addr).
Proof.
  eexists. eexists. split; [vm_compute; reflexivity |].
  apply (@created_tron_account_loads_back _ AccountFixtures.tronKeys Fixtures.pubkey).
  - vm_compute. reflexivity.
  - vm_compute. reflexivity.
Defined.

(** ** Stellar: [GetStellarBalance] *)

Section StellarBalance.

Import Stellar.
Context `{Horizon}.

Lemma nativeBalance_iff (balances : list Balance) (value : Float) :
  nativeBalance balances = Some value <->
  exists i balance,
    nth_error balances i = Some balance /\
    AssetType balance = "native"%string /\
    (forall j other, (j < i)%nat -> nth_error balances j = Some other ->
       AssetType other <> "native"%string) /\
    big_SetString (BalanceText balance) = Some value.
Proof.
  induction balances as [| b rest IH]; simpl.
  - split; [discriminate |]. intros (i & balance & Hi & _). destruct i; discriminate.
  - destruct (String.eqb (AssetType b) "native") eqn:Hnative.
    + apply String.eqb_eq in Hnative. split.
      * intros Hv. exists 0%nat, b. split; [reflexivity |]. split; [exact Hnative |].
        split; [intros j other Hj; lia | exact Hv].
      * intros (i & balance & Hi & Hn & Hfirst & Hv).
        destruct i as [| i]; [simpl in Hi; inversion Hi; subst; exact Hv |].
        exfalso. apply (Hfirst 0%nat b); [lia | reflexivity | exact Hnative].
    + apply String.eqb_neq in Hnative. rewrite IH. split.
      * intros (i & balance & Hi & Hn & Hfirst & Hv).
        exists (S i), balance. split; [exact Hi |]. split; [exact Hn |].
        split; [| exact Hv].
        intros [| j] other Hj Ho; simpl in Ho.
        -- inversion Ho; subst. exact Hnative.
        -- apply (Hfirst j); [lia | exact Ho].
      * intros (i & balance & Hi & Hn & Hfirst & Hv).
        destruct i as [| i]; [simpl in Hi; inversion Hi; subst; congruence |].
        exists i, balance. split; [exact Hi |]. split; [exact Hn |].
        split; [| exact Hv].
        intros j other Hj Ho. apply (Hfirst (S j)); [lia | exact Ho].
Qed.

(** X15 -- [GetStellarBalance] returns the number read from the first
    balance of type "native", and from that one only: it returns a value
    exactly when the account is found, some balance is native, and the text
    of the first native balance is a number; the balances after it are
    never read, so a first native balance that is not a number gives nil
    even when a later one is. *)
Theorem GetStellarBalance_first_native (client : Client) (address : string)
    (value : Float) :
  GetStellarBalance client address = Some value <->
  exists balances i balance,
    AccountDetail client address = Some balances /\
    nth_error balances i = Some balance /\
    AssetType balance = "native"%string /\
    (forall j other, (j < i)%nat -> nth_error balances j = Some other ->
       AssetType other <> "native"%string) /\
    big_SetString (BalanceText balance) = Some value.
Proof.
  unfold GetStellarBalance.
  destruct (AccountDetail client address) as [balances |].
  - rewrite nativeBalance_iff. split.
    + intros (i & balance & Hrest). exists balances, i, balance. auto.
    + intros (balances' & i & balance & Heq & Hrest). inversion Heq; subst.
      exists i, balance. exact Hrest.
  - split; [discriminate |]. intros (balances & i & balance & Heq & _). discriminate.
Qed.

End StellarBalance.

Lemma GetStellarBalance_first_native_witness :
  exists balances i balance,
    @Stellar.AccountDetail AccountFixtures.horizon tt "GA"%string = Some balances /\
    nth_error balances i = Some balance /\
    Stellar.AssetType balance = "native"%string /\
    (forall j other, (j < i)%nat -> nth_error balances j = Some other ->
       Stellar.AssetType other <> "native"%string) /\
    @Stellar.big_SetString AccountFixtures.horizon (Stellar.BalanceText balance)
      = Some "12.5"%string.
Proof.
  apply (proj1 (@GetStellarBalance_first_native AccountFixtures.horizon tt
                  "GA"%string "12.5"%string)).
  vm_compute. reflexivity.
Defined.
